(** * Authentication back end of the cloud-storage application

    A shallow embedding of the Express back end:

    - [backend/middleware/auth.js]   the request gate [verifyToken];
    - [backend/models/User.js]       the Mongoose schema of an identity;
    - the auth router                [POST /register], [POST /login] and
                                     [POST /phone-login];
    - [backend/routes/files.js]      [POST /upload], [GET /] and
                                     [DELETE /:fileId], behind the gate.

    Handlers are functions from a request and the current collection of
    users to a response and the new collection.  The clock ([Date.now()],
    read once per request) and the random salt ([bcrypt.genSalt]) are
    inputs of a handler.  The body fields of a request to the auth
    router are absent or strings, and requests are handled one after
    another.  Strings are sequences of UTF-8 bytes.

    The program is glue around third-party packages.  express-validator,
    bcryptjs and firebase-admin are parameters of the sections below, and
    so are [String.prototype.toLowerCase] and [path.extname] of the
    runtime.  jsonwebtoken is modelled symbolically ([Jwt]): what [sign]
    puts in a token and what [verify] checks.  The Mongoose collection is
    a list of documents with the schema's setters and unique indexes
    ([Model]).  multer is the step between the gate and the upload
    handler ([Files.upload_single]).  [Sample] instantiates the
    parameters to run concrete requests. *)

From Stdlib Require Import String Ascii List ZArith Bool Arith Lia.
From Stdlib Require Import DecimalString.
From Stdlib Require Import Permutation.
Import ListNotations.
Open Scope string_scope.

(** ** JavaScript values and strings *)

Module Js.

(** The JSON-like values the handlers build and return.  An [ObjectId]
    of the database driver is kept apart from strings and numbers. *)
Unset Elimination Schemes.
Inductive value :=
| VUndef
| VBool (b : bool)
| VNum (z : Z)
| VStr (s : string)
| VId (oid : nat)
| VObj (fields : list (string * value)).
Set Elimination Schemes.

(** An object literal: its properties in insertion order. *)
Definition object := list (string * value).

Fixpoint get (k : string) (o : object) : value :=
  match o with
  | [] => VUndef
  | (k', v) :: o' => if String.eqb k k' then v else get k o'
  end.

(** [s.startsWith(p)] *)
Definition startsWith (s p : string) : bool := String.prefix p s.

(** [s.substring(n)]: from index [n] to the end. *)
Definition substring_from (n : nat) (s : string) : string :=
  String.substring n (String.length s - n) s.

(** Truthiness of an optional string property: [undefined] and the
    empty string are falsy. *)
Definition truthy (x : option string) : bool :=
  match x with
  | None => false
  | Some s => negb (String.eqb s "")
  end.

(** [String(x)] for an optional string ([undefined] is read by the
    validators as the empty string). *)
Definition to_string (x : option string) : string :=
  match x with
  | None => ""
  | Some s => s
  end.

(** Strings are kept as their UTF-8 bytes: a character is one byte, or a
    lead byte followed by one to three continuation bytes. *)

(** The number of characters (code points) of a string: its bytes that
    are not continuation bytes (those from 128 to 191).  In UTF-16 this
    is [s.length] less the number of surrogate pairs. *)
Definition is_continuation (c : ascii) : bool :=
  let n := nat_of_ascii c in (128 <=? n)%nat && (n <=? 191)%nat.

Fixpoint char_length (s : string) : nat :=
  match s with
  | EmptyString => 0
  | String c s' =>
      if is_continuation c then char_length s' else S (char_length s')
  end.

(** The variation selectors U+FE0E and U+FE0F (EF B8 8E, EF B8 8F) of a
    string. *)
Definition is_variation_selector (c1 c2 c3 : ascii) : bool :=
  ((nat_of_ascii c1 =? 239) && (nat_of_ascii c2 =? 184)
   && ((nat_of_ascii c3 =? 142) || (nat_of_ascii c3 =? 143)))%nat.

Fixpoint variation_selectors (s : string) : nat :=
  match s with
  | EmptyString => 0
  | String c1 r1 =>
      (match r1 with
       | String c2 (String c3 _) =>
           if is_variation_selector c1 c2 c3 then 1 else 0
       | _ => 0
       end + variation_selectors r1)%nat
  end.

(** [s.includes(sub)] *)
Fixpoint includes (sub s : string) : bool :=
  String.prefix sub s
  || match s with
     | EmptyString => false
     | String _ s' => includes sub s'
     end.

(** The white space and line terminators that [trim] removes.  In one
    byte: TAB, LF, VT, FF, CR and SPACE. *)
Definition is_space (c : ascii) : bool :=
  let n := nat_of_ascii c in
  ((9 <=? n)%nat && (n <=? 13)%nat) || (n =? 32)%nat.

(** In two bytes: U+00A0 (C2 A0). *)
Definition is_space2 (c1 c2 : ascii) : bool :=
  (nat_of_ascii c1 =? 194)%nat && (nat_of_ascii c2 =? 160)%nat.

(** In three bytes: U+1680 (E1 9A 80); U+2000 to U+200A, U+2028, U+2029
    and U+202F (E2 80 80 to 8A, A8, A9, AF); U+205F (E2 81 9F); U+3000
    (E3 80 80); U+FEFF (EF BB BF). *)
Definition is_space3 (c1 c2 c3 : ascii) : bool :=
  let x := nat_of_ascii c1 in
  let y := nat_of_ascii c2 in
  let z := nat_of_ascii c3 in
  ((x =? 225) && (y =? 154) && (z =? 128))%nat
  || ((x =? 226) && (y =? 128)
      && (((128 <=? z) && (z <=? 138))
          || (z =? 168) || (z =? 169) || (z =? 175)))%nat
  || ((x =? 226) && (y =? 129) && (z =? 159))%nat
  || ((x =? 227) && (y =? 128) && (z =? 128))%nat
  || ((x =? 239) && (y =? 187) && (z =? 191))%nat.

(** What follows the white-space character a string begins with, if it
    begins with one. *)
Definition ws_prefix (s : string) : option string :=
  match s with
  | EmptyString => None
  | String c1 r1 =>
      if is_space c1 then Some r1
      else match r1 with
           | EmptyString => None
           | String c2 r2 =>
               if is_space2 c1 c2 then Some r2
               else match r2 with
                    | EmptyString => None
                    | String c3 r3 =>
                        if is_space3 c1 c2 c3 then Some r3 else None
                    end
           end
  end.

Fixpoint trimStart (s : string) : string :=
  match s with
  | EmptyString => EmptyString
  | String c1 r1 =>
      if is_space c1 then trimStart r1
      else match r1 with
           | EmptyString => s
           | String c2 r2 =>
               if is_space2 c1 c2 then trimStart r2
               else match r2 with
                    | EmptyString => s
                    | String c3 r3 =>
                        if is_space3 c1 c2 c3 then trimStart r3 else s
                    end
           end
  end.

(** The string is made of white space only. *)
Fixpoint all_space (s : string) : bool :=
  match s with
  | EmptyString => true
  | String c1 r1 =>
      if is_space c1 then all_space r1
      else match r1 with
           | EmptyString => false
           | String c2 r2 =>
               if is_space2 c1 c2 then all_space r2
               else match r2 with
                    | EmptyString => false
                    | String c3 r3 =>
                        is_space3 c1 c2 c3 && all_space r3
                    end
           end
  end.

(** [trimEnd] keeps a byte as long as what begins there is not white
    space only. *)
Fixpoint trimEnd (s : string) : string :=
  if all_space s then EmptyString
  else match s with
       | EmptyString => EmptyString
       | String c s' => String c (trimEnd s')
       end.

(** [String.prototype.trim] *)
Definition trim (s : string) : string := trimEnd (trimStart s).

Definition option_eqb (a b : option string) : bool :=
  match a, b with
  | Some x, Some y => String.eqb x y
  | None, None => true
  | _, _ => false
  end.

End Js.
Import Js.

(** ** HTTP responses *)

Record response := { status : nat; body : value }.

(** [res.status(c).json({ error: msg })] *)
Definition send_error (c : nat) (msg : string) : response :=
  {| status := c; body := VObj [("error", VStr msg)] |}.

(** ** jsonwebtoken

    The two calls the program makes, [jwt.sign(payload, secret,
    { expiresIn: '7d' })] and [jwt.verify(token, secret)], over a
    symbolic token: a compact token stands for the claims it carries and
    the key it was signed with.  The serialisation itself ([compact], and
    [parse] for its inverse) is a parameter.  Times: [Date.now()] is in
    milliseconds, the [iat] and [exp] claims are in seconds. *)

Module Jwt.

Record jws := { payload : object; signed_with : string }.

Inductive error :=
| JsonWebTokenError (message : string)
| TokenExpiredError (expiredAt : Z).

(** [ms('7d') / 1000]: the span of [expiresIn: '7d'] in seconds. *)
Definition seven_days : Z := 7 * 24 * 60 * 60.

(** [Math.floor(Date.now() / 1000)] *)
Definition clockTimestamp (now : Z) : Z := (now / 1000)%Z.

Section Codec.
Variable compact : jws -> string.
Variable parse : string -> option jws.

(** [sign] stamps [iat] with the current second and sets
    [exp = iat + expiresIn]. *)
Definition sign (claims : object) (secret : string) (expiresIn : Z)
           (now : Z) : string :=
  let iat := clockTimestamp now in
  compact {| payload := (claims ++ [("iat", VNum iat);
                                    ("exp", VNum (iat + expiresIn)%Z)])%list;
             signed_with := secret |}.

(** [verify] decodes the token, checks the signature against the
    secret, then the expiry: the token is expired as soon as the
    current second reaches [exp].  Its checks of the claims [nbf],
    [aud], [iss], [sub] and [jti] are left out: [sign] as called here
    sets none of them and [verify] is called without options. *)
Definition verify (token secret : string) (now : Z) : error + object :=
  match parse token with
  | None => inl (JsonWebTokenError "jwt malformed")
  | Some j =>
      if negb (String.eqb (signed_with j) secret)
      then inl (JsonWebTokenError "invalid signature")
      else
        match get "exp" (payload j) with
        | VUndef => inr (payload j)
        | VNum exp =>
            if (exp <=? clockTimestamp now)%Z
            then inl (TokenExpiredError (exp * 1000)%Z)
            else inr (payload j)
        | _ => inl (JsonWebTokenError "invalid exp value")
        end
  end.
End Codec.

End Jwt.

(** ** backend/middleware/auth.js *)

Module Middleware.

(** What [admin.auth().verifyIdToken] resolves to: the claims of the
    provider's assertion that the gate reads. *)
Record DecodedIdToken := { uid : string; phone_number : option string }.

(** The calls the gate makes into the two verifiers, in order. *)
Inductive call :=
| JwtVerify (token secret : string)
| VerifyIdToken (token : string).

(** The gate either hands the request on with [req.user] set, or
    answers it. *)
Inductive outcome :=
| Next (user : value)
| Send (r : response).

Definition of_optional (x : option string) : value :=
  match x with
  | None => VUndef
  | Some s => VStr s
  end.

(** The principal read off a provider assertion [a]:
    [{ userId: a.uid, phoneNumber: a.phone_number,
       authProvider: 'phone' }]. *)
Definition phone_principal (a : DecodedIdToken) : value :=
  VObj [("userId", VStr (uid a));
        ("phoneNumber", of_optional (phone_number a));
        ("authProvider", VStr "phone")].

Section Gate.
Variable JWT_SECRET : string.
Variable parse : string -> option Jwt.jws.
(** [admin.auth().verifyIdToken(token)]: the decoded assertion, or the
    message of the error it throws. *)
Variable verifyIdToken : string -> string + DecodedIdToken.

Definition verifyToken (authorization : option string) (now : Z)
  : outcome * list call :=
  match authorization with
  | None => (Send (send_error 401 "No token provided"), [])
  | Some authHeader =>
      if negb (truthy (Some authHeader))
         || negb (startsWith authHeader "Bearer ")
      then (Send (send_error 401 "No token provided"), [])
      else
        let token := substring_from 7 authHeader in
        match Jwt.verify parse token JWT_SECRET now with
        | inr decoded =>
            (Next (VObj decoded), [JwtVerify token JWT_SECRET])
        | inl jwtError =>
            match verifyIdToken token with
            | inr decodedToken =>
                (Next (VObj [("userId", VStr (uid decodedToken));
                             ("phoneNumber",
                              of_optional (phone_number decodedToken));
                             ("authProvider", VStr "phone")]),
                 [JwtVerify token JWT_SECRET; VerifyIdToken token])
            | inl firebaseError =>
                (Send (send_error 401 "Invalid token"),
                 [JwtVerify token JWT_SECRET; VerifyIdToken token])
            end
        end
  end.
End Gate.

End Middleware.

(** ** backend/models/User.js *)

Module Model.

(** [authProvider: { enum: ['email', 'phone'], required: true }] *)
Inductive AuthProvider := email_provider | phone_provider.

Definition provider_name (p : AuthProvider) : string :=
  match p with
  | email_provider => "email"
  | phone_provider => "phone"
  end.

(** A document of the collection.  [createdAt] and [lastLogin] default
    to [Date.now]; [updatedAt] comes with [timestamps: true]. *)
Record User := {
  _id : nat;
  email : option string;
  phoneNumber : option string;
  passwordHash : option string;
  authProvider : AuthProvider;
  createdAt : Z;
  lastLogin : Z;
  updatedAt : Z
}.

Section Schema.
(** [String.prototype.toLowerCase] of the JavaScript runtime: its case
    tables are not part of the program. *)
Variable toLowerCase : string -> string.

(** The schema's setters: [email] is [lowercase: true, trim: true],
    [phoneNumber] is [trim: true].  Mongoose runs them when a document
    is built and when a query filter is cast.  Putting letters in lower
    case neither adds nor removes white space, so the order of the two
    setters of [email] does not show in the result. *)
Definition set_email (s : string) : string := toLowerCase (trim s).
Definition set_phoneNumber (s : string) : string := trim s.

(** The collection, in insertion order, and the next [ObjectId] the
    driver hands out. *)
Record db := { users : list User; next_id : nat }.

Definition empty : db := {| users := []; next_id := 0 |}.

(** [User.findOne({ email })] *)
Definition findOne_email (q : string) (d : db) : option User :=
  find (fun u => option_eqb (email u) (Some (set_email q))) (users d).

(** [User.findOne({ phoneNumber })] *)
Definition findOne_phoneNumber (q : string) (d : db) : option User :=
  find (fun u => option_eqb (phoneNumber u) (Some (set_phoneNumber q)))
       (users d).

(** The two sparse unique indexes: a document that has the field set
    may not share its value with another document. *)
Definition clashes (u v : User) : bool :=
  match email u with
  | Some _ => option_eqb (email u) (email v)
  | None => false
  end
  ||
  match phoneNumber u with
  | Some _ => option_eqb (phoneNumber u) (phoneNumber v)
  | None => false
  end.

(** [new User({ ... })]: the document gets its [_id] and defaults when
    it is built. *)
Definition new_User (e p h : option string) (a : AuthProvider)
           (now : Z) (d : db) : User :=
  {| _id := next_id d;
     email := option_map set_email e;
     phoneNumber := option_map set_phoneNumber p;
     passwordHash := h;
     authProvider := a;
     createdAt := now;
     lastLogin := now;
     updatedAt := now |}.

End Schema.

(** [user.save()] of a new document: an insert, which throws a
    duplicate-key error ([None]) when a unique index is violated. *)
Definition save_new (u : User) (d : db) : option db :=
  if existsb (clashes u) (users d) then None
  else Some {| users := users d ++ [u]; next_id := S (next_id d) |}.

(** [user.lastLogin = new Date(); user.save()]: an update of the stored
    document with the same [_id]. *)
Definition touch (u : User) (now : Z) : User :=
  {| _id := _id u;
     email := email u;
     phoneNumber := phoneNumber u;
     passwordHash := passwordHash u;
     authProvider := authProvider u;
     createdAt := createdAt u;
     lastLogin := now;
     updatedAt := now |}.

Definition save_existing (u : User) (d : db) : db :=
  {| users := map (fun v => if (_id v =? _id u)%nat then u else v)
                  (users d);
     next_id := next_id d |}.

(** *** Invariants of the collection *)

(** The credential fields an identity carries follow its [authProvider]. *)
Definition well_formed (u : User) : Prop :=
  match authProvider u with
  | email_provider => passwordHash u <> None
  | phone_provider => passwordHash u = None /\ email u = None
  end.

(** Identifiers are unique and below the next one to be handed out. *)
Record consistent (d : db) : Prop := {
  cons_wf : Forall well_formed (users d);
  cons_ids : NoDup (map _id (users d));
  cons_fresh : Forall (fun u => (_id u < next_id d)%nat) (users d)
}.

(** What an update of [lastLogin] leaves alone. *)
Definition same_identity (u v : User) : Prop :=
  _id v = _id u /\ email v = email u /\ phoneNumber v = phoneNumber u
  /\ passwordHash v = passwordHash u /\ authProvider v = authProvider u
  /\ createdAt v = createdAt u.

(** [d'] still holds every identity of [d], at its place, with its
    identifier, contact values, password hash and provider. *)
Definition keeps (d d' : db) : Prop :=
  forall (i : nat) (u : User),
    nth_error (users d) i = Some u ->
    exists u', nth_error (users d') i = Some u' /\ same_identity u u'.

End Model.
Import Model.

(** ** The auth router *)

Module Routes.

Section Router.
(** [String.prototype.toLowerCase] *)
Variable toLowerCase : string -> string.
Variable JWT_SECRET : string.
(** jsonwebtoken's serialisation. *)
Variable compact : Jwt.jws -> string.
(** express-validator: [isEmail()] and [normalizeEmail()]. *)
Variable isEmail : string -> bool.
Variable normalizeEmail : string -> string.
(** bcryptjs: [hash(password, salt)] and [compare(password, hash)]. *)
Variable bcrypt_hash : string -> string -> string.
Variable bcrypt_compare : string -> string -> bool.

(** What validator.js [isLength] compares with its bounds: [s.length]
    less the surrogate pairs and less the variation selectors of the
    string, that is, its characters other than variation selectors. *)
Definition isLength_count (s : string) : nat :=
  (char_length s - variation_selectors s)%nat.

(** [body('password').isLength({ min: 6 })] *)
Definition isLength_min6 (s : string) : bool :=
  (6 <=? isLength_count s)%nat.

(** [body('password').notEmpty()] *)
Definition notEmpty (s : string) : bool := negb (String.eqb s "").

(** [POST /register].  [salt] is the result of [bcrypt.genSalt(10)]. *)
Definition register (body_email body_password : option string)
           (salt : string) (now : Z) (d : db) : response * db :=
  if negb (isEmail (to_string body_email)
           && isLength_min6 (to_string body_password))
  then (send_error 400 "Invalid email or password format", d)
  else
    let email := normalizeEmail (to_string body_email) in
    let password := to_string body_password in
    match findOne_email toLowerCase email d with
    | Some existingUser =>
        (send_error 400 "User already registered. Please login.", d)
    | None =>
        let passwordHash := bcrypt_hash password salt in
        let user :=
          new_User toLowerCase (Some email) None (Some passwordHash)
                   email_provider now d in
        match save_new user d with
        | Some d' =>
            ({| status := 201;
                body := VObj [("message", VStr "Registration successful");
                              ("success", VBool true)] |}, d')
        | None => (send_error 500 "Registration failed", d)
        end
    end.

(** The identity [register] stores for a body [(e, p)]. *)
Definition registered (e p : option string) (salt : string) (now : Z)
           (d : db) : User :=
  {| _id := next_id d;
     email := Some (set_email toLowerCase (normalizeEmail (to_string e)));
     phoneNumber := None;
     passwordHash := Some (bcrypt_hash (to_string p) salt);
     authProvider := email_provider;
     createdAt := now;
     lastLogin := now;
     updatedAt := now |}.

(** [POST /login] *)
Definition login (body_email body_password : option string)
           (now : Z) (d : db) : response * db :=
  if negb (isEmail (to_string body_email)
           && notEmpty (to_string body_password))
  then (send_error 400 "Invalid email or password format", d)
  else
    let email := normalizeEmail (to_string body_email) in
    let password := to_string body_password in
    match findOne_email toLowerCase email d with
    | None =>
        (send_error 404 "User not registered. Please register first.", d)
    | Some user =>
        match passwordHash user with
        | None =>
            (* bcrypt.compare rejects a missing hash: caught below *)
            (send_error 500 "Login failed", d)
        | Some hash =>
            if negb (bcrypt_compare password hash)
            then (send_error 401 "Incorrect password.", d)
            else
              let user := touch user now in
              let d' := save_existing user d in
              let token :=
                Jwt.sign compact
                  [("userId", VId (_id user));
                   ("email", Middleware.of_optional (Model.email user));
                   ("authProvider", VStr "email")]
                  JWT_SECRET Jwt.seven_days now in
              ({| status := 200;
                  body := VObj
                    [("token", VStr token);
                     ("user", VObj
                        [("id", VId (_id user));
                         ("email",
                          Middleware.of_optional (Model.email user));
                         ("authProvider",
                          VStr (provider_name (authProvider user)))])]
               |}, d')
        end
    end.

(** [POST /phone-login] *)
Definition phone_login (idToken phoneNumber : option string)
           (now : Z) (d : db) : response * db :=
  if negb (truthy idToken) || negb (truthy phoneNumber)
  then (send_error 400 "Missing required fields", d)
  else
    let saved :=
      match findOne_phoneNumber (to_string phoneNumber) d with
      | None =>
          let user :=
            new_User toLowerCase None phoneNumber None phone_provider now d in
          option_map (fun d' => (user, d')) (save_new user d)
      | Some user =>
          let user := touch user now in
          Some (user, save_existing user d)
      end in
    match saved with
    | None => (send_error 500 "Phone authentication failed", d)
    | Some (user, d') =>
        let token :=
          Jwt.sign compact
            [("userId", VId (_id user));
             ("phoneNumber",
              Middleware.of_optional (Model.phoneNumber user));
             ("authProvider", VStr "phone")]
            JWT_SECRET Jwt.seven_days now in
        ({| status := 200;
            body := VObj
              [("token", VStr token);
               ("user", VObj
                  [("id", VId (_id user));
                   ("phoneNumber",
                    Middleware.of_optional (Model.phoneNumber user));
                   ("authProvider",
                    VStr (provider_name (authProvider user)))])]
         |}, d')
    end.

(** The three operations as one request type, for runs of the
    router.  A body field is absent or a string.  A client can also send
    a number, an array or an object: what the validators, bcryptjs and
    Mongoose do with those is not modelled, and no statement below is
    about such a request. *)
Inductive request :=
| Register (email password : option string) (salt : string)
| Login (email password : option string)
| PhoneLogin (idToken phoneNumber : option string).

Definition handle (r : request) (now : Z) (d : db) : response * db :=
  match r with
  | Register e p salt => register e p salt now d
  | Login e p => login e p now d
  | PhoneLogin t p => phone_login t p now d
  end.

(** The collections the router can reach from the empty one. *)
Inductive reachable : db -> Prop :=
| reach_empty : reachable empty
| reach_step d r now :
    reachable d -> reachable (snd (handle r now d)).

End Router.

End Routes.
Import Routes.

(** ** Contact values of the stored identities *)

Module Contacts.

(** The e-mail addresses, and the phone numbers, present in a list of
    identities, in order. *)
Definition emails (l : list User) : list string :=
  flat_map (fun u => match email u with Some e => [e] | None => [] end) l.

Definition phoneNumbers (l : list User) : list string :=
  flat_map (fun u => match phoneNumber u with Some p => [p] | None => [] end)
           l.

(** No address and no number is stored twice. *)
Definition contacts_unique (d : db) : Prop :=
  NoDup (emails (users d)) /\ NoDup (phoneNumbers (users d)).

Section Setters.
Variable toLowerCase : string -> string.

(** An identity has the one contact value of its provider, and the value
    is as the schema's setter leaves it. *)
Definition contact_ok (u : User) : Prop :=
  match authProvider u with
  | email_provider =>
      (exists s, email u = Some s /\ set_email toLowerCase s = s)
      /\ phoneNumber u = None
  | phone_provider =>
      email u = None
      /\ exists s, phoneNumber u = Some s /\ set_phoneNumber s = s
  end.

Record contacts_ok (d : db) : Prop := {
  contacts_each : Forall contact_ok (users d);
  contacts_emails : NoDup (emails (users d));
  contacts_phones : NoDup (phoneNumbers (users d))
}.

End Setters.

(** The statuses the auth router sends when nothing was thrown. *)
Definition expected_status (c : nat) : bool :=
  existsb (Nat.eqb c) [200; 201; 400; 401; 404]%nat.

End Contacts.
Import Contacts.

(** ** backend/routes/files.js

    The three routes behind the gate.  The schema of a file document
    ([models/File.js]) is not among these sources: a document has the
    fields the routes write and read, and what the schema decides is a
    parameter of the section: the default of [uploadedAt], the error
    [save] throws if it throws, the cast of a path segment to an
    [ObjectId], and the order [sort({ uploadedAt: -1 })] gives.  The
    upload directory is a list of paths, relative to the back end's
    directory.

    Between the gate and the handler of [POST /upload] runs
    [upload.single('file')]: multer applies the file filter and the size
    limit, writes the file into the upload directory and leaves
    [req.file].  What multer refuses it hands to Express as an error:
    the handler does not run, and Express's final handler answers
    [500].  A request carries at most one file part, in the field
    [file]. *)

Module Files.

(** Equality of two JSON-like values. *)
Fixpoint value_eqb (a b : value) : bool :=
  match a, b with
  | VUndef, VUndef => true
  | VBool x, VBool y => Bool.eqb x y
  | VNum x, VNum y => Z.eqb x y
  | VStr x, VStr y => String.eqb x y
  | VId x, VId y => Nat.eqb x y
  | VObj f, VObj g =>
      (fix fields (l m : list (string * value)) : bool :=
         match l, m with
         | [], [] => true
         | (k, v) :: l', (k', v') :: m' =>
             String.eqb k k' && value_eqb v v' && fields l' m'
         | _, _ => false
         end) f g
  | _, _ => false
  end.

(** [v.k] for a value that may be an object. *)
Definition prop (k : string) (v : value) : value :=
  match v with
  | VObj o => get k o
  | _ => VUndef
  end.

Record FileDoc := {
  file_id : nat;
  userId : value;
  fileName : string;
  originalName : string;
  fileType : string;
  fileSize : Z;
  fileUrl : string;
  uploadedAt : value
}.

(** The collection of file documents, the next [ObjectId], and the paths
    present in the upload directory. *)
Record store := {
  files : list FileDoc;
  next_file_id : nat;
  disk : list string
}.

(** [req.file], as multer's disk storage leaves it. *)
Record UploadedFile := {
  filename : string;
  originalname : string;
  mimetype : string;
  size : Z
}.

(** The file part of a multipart request, as the client sent it. *)
Record Part := {
  part_originalname : string;
  part_mimetype : string;
  part_size : Z
}.

(** An answer is a JSON body with a status, or, for the listing, the
    array of documents (status 200), or the page of Express's final
    handler for an error no route handled (status 500). *)
Inductive reply :=
| Json (r : response)
| FileList (docs : list FileDoc)
| Unhandled (message : string).

Definition reply_status (r : reply) : nat :=
  match r with
  | Json r => status r
  | FileList _ => 200
  | Unhandled _ => 500
  end.

(** The documents of an answer that is a listing. *)
Definition listed (r : reply) : list FileDoc :=
  match r with
  | FileList docs => docs
  | _ => []
  end.

Definition BLOCKED_EXTENSIONS : list string :=
  [".exe"; ".bat"; ".sh"; ".cmd"; ".com"; ".app"; ".msi"; ".dmg"].

Definition MAX_FILE_SIZE : Z := 50 * 1024 * 1024.

(** [File.deleteOne({ _id })]: the first document with that [_id] goes. *)
Fixpoint deleteOne (id : nat) (l : list FileDoc) : list FileDoc :=
  match l with
  | [] => []
  | d :: l' => if (file_id d =? id)%nat then l' else d :: deleteOne id l'
  end.

(** [fs.unlinkSync(p)] *)
Definition unlink (p : string) (paths : list string) : list string :=
  filter (fun q => negb (String.eqb q p)) paths.

(** [fs] writes a file: the path is present afterwards. *)
Definition write (p : string) (paths : list string) : list string :=
  if existsb (String.eqb p) paths then paths else (paths ++ [p])%list.

Definition write_file (p : string) (s : store) : store :=
  {| files := files s;
     next_file_id := next_file_id s;
     disk := write p (disk s) |}.

Section FileRouter.
Variable JWT_SECRET : string.
Variable parse : string -> option Jwt.jws.
Variable verifyIdToken : string -> string + Middleware.DecodedIdToken.
(** From the runtime: [String.prototype.toLowerCase] and
    [path.extname]. *)
Variable toLowerCase : string -> string.
Variable extname : string -> string.
(** From multer: whether a file of a size passes under
    [limits.fileSize]; given the limit and the size, in bytes. *)
Variable within_limit : Z -> Z -> bool.
(** From the schema and the driver. *)
Variable castObjectId : string -> option nat.
Variable uploadedAt_default : Z -> value.
(** [file.save()]: the message of the error it throws, if it throws. *)
Variable File_save_error : FileDoc -> option string.
Variable sort_uploadedAt_desc : list FileDoc -> list FileDoc.

(** [fileFilter]: the message of the error it passes on, if it
    refuses the file. *)
Definition fileFilter (p : Part) : option string :=
  let ext := toLowerCase (extname (part_originalname p)) in
  if existsb (String.eqb ext) BLOCKED_EXTENSIONS
  then Some "Executable files are not allowed for security reasons"
  else None.

(** [storage.filename]; [uniqueSuffix] is what the clock and the random
    generator give: [Date.now() + '-' + Math.round(Math.random() * 1E9)]. *)
Definition storage_filename (p : Part) (uniqueSuffix : string) : string :=
  "file" ++ "-" ++ uniqueSuffix ++ extname (part_originalname p).

(** [req.file] for a part multer has stored. *)
Definition stored_file (p : Part) (uniqueSuffix : string) : UploadedFile :=
  {| filename := storage_filename p uniqueSuffix;
     originalname := part_originalname p;
     mimetype := part_mimetype p;
     size := part_size p |}.

(** [upload.single('file')] with this storage, filter and limit: the
    message of the error handed to Express, or [req.file] with the file
    written. *)
Definition upload_single (part : option Part) (uniqueSuffix : string)
           (s : store) : (string + option UploadedFile) * store :=
  match part with
  | None => (inr None, s)
  | Some p =>
      match fileFilter p with
      | Some message => (inl message, s)
      | None =>
          if within_limit MAX_FILE_SIZE (part_size p)
          then
            let f := stored_file p uniqueSuffix in
            (inr (Some f), write_file ("/uploads/" ++ filename f) s)
          else (inl "File too large", s)
      end
  end.

(** [new File({ ... })] for [req.file]: the document gets its [_id] and
    the default of [uploadedAt] when it is built. *)
Definition new_File (user : value) (f : UploadedFile) (now : Z) (s : store)
  : FileDoc :=
  {| file_id := next_file_id s;
     userId := prop "userId" user;
     fileName := filename f;
     originalName := originalname f;
     fileType := mimetype f;
     fileSize := size f;
     fileUrl := "/uploads/" ++ filename f;
     uploadedAt := uploadedAt_default now |}.

(** The handler of [POST /upload], after the gate and multer. *)
Definition upload (user : value) (file : option UploadedFile) (now : Z)
           (s : store) : reply * store :=
  match file with
  | None => (Json (send_error 400 "No file uploaded"), s)
  | Some f =>
      let fileUrl := "/uploads/" ++ filename f in
      let doc := new_File user f now s in
      match File_save_error doc with
      | None =>
           (Json {| status := 201;
                    body := VObj
                      [("message", VStr "File uploaded successfully");
                       ("file", VObj
                          [("id", VId (file_id doc));
                           ("fileName", VStr (originalName doc));
                           ("fileType", VStr (fileType doc));
                           ("fileSize", VNum (fileSize doc));
                           ("fileUrl", VStr fileUrl);
                           ("uploadedAt", uploadedAt doc)])] |},
            {| files := (files s ++ [doc])%list;
               next_file_id := S (next_file_id s);
               disk := disk s |})
      | Some message =>
          if includes "Executable files" message
          then (Json (send_error 400 message), s)
          else (Json (send_error 500 "File upload failed"), s)
      end
  end.

(** [File.find({ userId: req.user.userId })] *)
Definition find_own (user : value) (s : store) : list FileDoc :=
  filter (fun d => value_eqb (userId d) (prop "userId" user)) (files s).

(** The handler of [GET /]. *)
Definition list_files (user : value) (s : store) : reply * store :=
  (FileList (sort_uploadedAt_desc (find_own user s)), s).

(** The handler of [DELETE /:fileId]. *)
Definition delete_file (user : value) (fileId : string) (s : store)
  : reply * store :=
  match castObjectId fileId with
  | None => (Json (send_error 500 "Failed to delete file"), s)
  | Some id =>
      match find (fun d => (file_id d =? id)%nat
                           && value_eqb (userId d) (prop "userId" user))
                 (files s) with
      | None => (Json (send_error 404 "File not found"), s)
      | Some file =>
          let filePath := fileUrl file in
          let disk' :=
            if existsb (String.eqb filePath) (disk s)
            then unlink filePath (disk s) else disk s in
          (Json {| status := 200;
                   body := VObj
                     [("message", VStr "File deleted successfully")] |},
           {| files := deleteOne id (files s);
              next_file_id := next_file_id s;
              disk := disk' |})
      end
  end.

(** [router.METHOD(path, verifyToken, handler)]: the handler runs with
    [req.user] set when the gate calls [next()], and not at all when the
    gate answers. *)
Definition behind_gate (authorization : option string) (now : Z)
           (handler : value -> store -> reply * store) (s : store)
  : reply * store :=
  match fst (Middleware.verifyToken JWT_SECRET parse verifyIdToken
                                    authorization now) with
  | Middleware.Next user => handler user s
  | Middleware.Send r => (Json r, s)
  end.

(** The requests of the file router. *)
Inductive request :=
| Upload (part : option Part) (uniqueSuffix : string)
| List
| Delete (fileId : string).

(** What runs behind the gate: for an upload, multer and then the
    handler, unless multer hands an error to Express. *)
Definition handler (r : request) (now : Z) (user : value) (s : store)
  : reply * store :=
  match r with
  | Upload part uniqueSuffix =>
      match upload_single part uniqueSuffix s with
      | (inl message, s') => (Unhandled message, s')
      | (inr file, s') => upload user file now s'
      end
  | List => list_files user s
  | Delete fileId => delete_file user fileId s
  end.

Definition route (authorization : option string) (r : request) (now : Z)
           (s : store) : reply * store :=
  behind_gate authorization now (handler r now) s.

End FileRouter.

(** Every document has its own [_id], below the next one. *)
Record ids_ok (s : store) : Prop := {
  ids_unique : NoDup (map file_id (files s));
  ids_fresh : Forall (fun d => (file_id d < next_file_id s)%nat) (files s)
}.

End Files.

(** ** Session tokens, as the auth router signs them *)

Module Session.

(** What [jwt.sign(claims, secret, { expiresIn: '7d' })] signs at
    [issued]. *)
Definition signed (claims : object) (secret : string) (issued : Z) : Jwt.jws :=
  {| Jwt.payload :=
       (claims ++ [("iat", VNum (Jwt.clockTimestamp issued));
                   ("exp", VNum (Jwt.clockTimestamp issued
                                 + Jwt.seven_days)%Z)])%list;
     Jwt.signed_with := secret |}.

(** The claims [login] signs for the identity [u]. *)
Definition email_claims (u : User) : object :=
  [("userId", VId (_id u));
   ("email", Middleware.of_optional (email u));
   ("authProvider", VStr "email")].

(** The claims [phone-login] signs for the identity [uid] under the
    number [p]. *)
Definition phone_claims (uid : nat) (p : string) : object :=
  [("userId", VId uid);
   ("phoneNumber", VStr p);
   ("authProvider", VStr "phone")].

(** [data.token] and [data.user.id] of an answer. *)
Definition token_of (r : response) : value := Files.prop "token" (body r).

Definition user_id_of (r : response) : value :=
  Files.prop "id" (Files.prop "user" (body r)).

End Session.

(** ** A sample instantiation of the packages

    Concrete stand-ins for the third-party functions, to run the handlers
    on concrete requests.  Each follows the package on the inputs it is
    used on here: addresses whose letters are ASCII letters and whose
    domain has no provider-specific normalisation rule. *)

Module Sample.

(** [process.env.JWT_SECRET || 'your-secret-key-change-in-production'] *)
Definition JWT_SECRET : string := "your-secret-key-change-in-production".

(** *** [String.prototype.toLowerCase] on text whose only cased letters
    are the ASCII ones: they are put in lower case, every other byte is
    kept. *)
Definition lower_ascii (c : ascii) : ascii :=
  let n := nat_of_ascii c in
  if (65 <=? n)%nat && (n <=? 90)%nat then ascii_of_nat (n + 32) else c.

Fixpoint toLowerCase (s : string) : string :=
  match s with
  | EmptyString => EmptyString
  | String c s' => String (lower_ascii c) (toLowerCase s')
  end.

(** *** validator.js [isEmail], default options

    The address is split at its last [@]; the domain must be a fully
    qualified domain name, the local part a dot-separated sequence of
    non-empty atoms.  Quoted local parts, display names and non-ASCII
    domains are outside this stand-in. *)

Definition is_alpha (c : ascii) : bool :=
  let n := nat_of_ascii c in
  ((65 <=? n) && (n <=? 90) || (97 <=? n) && (n <=? 122))%nat.

Definition is_digit (c : ascii) : bool :=
  let n := nat_of_ascii c in ((48 <=? n) && (n <=? 57))%nat.

(** The characters of [/^[a-z\d!#\$%&'\*\+\-\/=\?\^_`{\|}~]+$/i]. *)
Definition is_atext (c : ascii) : bool :=
  is_alpha c || is_digit c
  || existsb (Ascii.eqb c)
       (list_ascii_of_string "!#$%&'*+-/=?^_`{|}~").

Fixpoint split_on (sep : ascii) (s : list ascii) : list (list ascii) :=
  match s with
  | [] => [[]]
  | c :: s' =>
      if Ascii.eqb c sep then [] :: split_on sep s'
      else match split_on sep s' with
           | [] => [[c]]
           | p :: ps => (c :: p) :: ps
           end
  end.

Definition nonempty_all (p : ascii -> bool) (s : list ascii) : bool :=
  negb (Nat.eqb (List.length s) 0) && forallb p s.

(** The characters beyond ASCII of the local part,
    [\u00A1-\uD7FF\uF900-\uFDCF\uFDF0-\uFFEF], by code point. *)
Definition is_utf8_text (cp : N) : bool :=
  ((161 <=? cp) && (cp <=? 55295)
   || (63744 <=? cp) && (cp <=? 64975)
   || (65008 <=? cp) && (cp <=? 65519))%N.

(** An atom of the local part: ASCII text characters and characters of
    two or three bytes in the ranges above. *)
Fixpoint atom_chars (l : list ascii) : bool :=
  match l with
  | [] => true
  | c1 :: r1 =>
      let x := N_of_ascii c1 in
      if (x <? 128)%N then is_atext c1 && atom_chars r1
      else match r1 with
           | [] => false
           | c2 :: r2 =>
               let y := N_of_ascii c2 in
               if ((192 <=? x) && (x <=? 223))%N
               then is_continuation c2
                    && is_utf8_text ((x - 192) * 64 + (y - 128))%N
                    && atom_chars r2
               else match r2 with
                    | [] => false
                    | c3 :: r3 =>
                        let z := N_of_ascii c3 in
                        ((224 <=? x) && (x <=? 239))%N
                        && is_continuation c2 && is_continuation c3
                        && is_utf8_text ((x - 224) * 4096 + (y - 128) * 64
                                         + (z - 128))%N
                        && atom_chars r3
                    end
           end
  end.

Definition is_atom (l : list ascii) : bool :=
  negb (Nat.eqb (List.length l) 0) && atom_chars l.

Definition is_label (l : list ascii) : bool :=
  nonempty_all (fun c => is_alpha c || is_digit c || Ascii.eqb c "-") l
  && (List.length l <=? 63)%nat
  && negb (Ascii.eqb (hd " "%char l) "-")
  && negb (Ascii.eqb (last l " "%char) "-").

Definition isFQDN (d : list ascii) : bool :=
  let labels := split_on "." d in
  (2 <=? List.length labels)%nat
  && forallb is_label labels
  && nonempty_all is_alpha (last labels [])
  && (2 <=? List.length (last labels []))%nat.

Definition isEmail (s : string) : bool :=
  let parts := split_on "@" (list_ascii_of_string s) in
  match rev parts with
  | domain :: (user :: _) as rest =>
      (List.length domain <=? 254)%nat
      && Nat.eqb (List.length rest) 1
      && (List.length user <=? 64)%nat
      && isFQDN domain
      && forallb is_atom (split_on "." user)
  | _ => false
  end.

(** *** validator.js [normalizeEmail], default options, on a domain
    without provider-specific rules: the whole address in lower case. *)
Definition normalizeEmail (s : string) : string := toLowerCase s.

(** *** bcryptjs, symbolically: a digest carries its salt (29
    characters) in front of what was hashed under it, and [compare]
    hashes the candidate again under the digest's own salt. *)
Definition bcrypt_hash (password salt : string) : string :=
  salt ++ password.

Definition bcrypt_compare (password hash : string) : bool :=
  String.eqb (bcrypt_hash password (String.substring 0 29 hash)) hash.

Definition salt1 : string := "$2a$10$abcdefghijklmnopqrstuv".

(** *** jsonwebtoken's serialisation: a rendering of the signed claims,
    read back against the tokens known to have been issued. *)
Definition render_num (z : Z) : string :=
  DecimalString.NilZero.string_of_int (Z.to_int z).

Fixpoint render (v : value) : string :=
  match v with
  | VUndef => "undefined"
  | VBool true => "true"
  | VBool false => "false"
  | VNum z => render_num z
  | VStr s => "'" ++ s ++ "'"
  | VId n => "oid" ++ render_num (Z.of_nat n)
  | VObj fs =>
      "{" ++ (fix fields (l : list (string * value)) : string :=
                match l with
                | [] => ""
                | (k, x) :: l' => k ++ ":" ++ render x ++ ";" ++ fields l'
                end) fs ++ "}"
  end.

Definition compact (j : Jwt.jws) : string :=
  render (VObj (Jwt.payload j)) ++ "." ++ Jwt.signed_with j.

Definition parse_among (issued : list Jwt.jws) (s : string)
  : option Jwt.jws :=
  find (fun j => String.eqb (compact j) s) issued.

(** *** firebase-admin as the router sets it up: the service account is
    a placeholder ([private_key_id: 'dummy']), initialisation is skipped,
    and every call to [admin.auth().verifyIdToken] throws. *)
Definition verifyIdToken (token : string)
  : string + Middleware.DecodedIdToken :=
  inl "Firebase app is not initialised".

(** The router and the gate over these stand-ins. *)
Definition register :=
  Routes.register toLowerCase isEmail normalizeEmail bcrypt_hash.
Definition login :=
  Routes.login toLowerCase JWT_SECRET compact isEmail normalizeEmail
               bcrypt_compare.
Definition phone_login := Routes.phone_login toLowerCase JWT_SECRET compact.
Definition handle :=
  Routes.handle toLowerCase JWT_SECRET compact isEmail normalizeEmail
                bcrypt_hash bcrypt_compare.
Definition reachable :=
  Routes.reachable toLowerCase JWT_SECRET compact isEmail normalizeEmail
                   bcrypt_hash bcrypt_compare.

(** *** A sample run: Alice registers at 1 s and logs in at 2 s. *)

Definition alice : option string := Some "Alice@Example.com".
Definition alice_password : option string := Some "hunter22".

Definition db_registered : db :=
  snd (register alice alice_password salt1 1000 empty).

Definition db_logged_in : db :=
  snd (login alice alice_password 2000 db_registered).

(** Her identity, as registration stored it. *)
Definition alice_identity : User :=
  {| _id := 0;
     email := Some "alice@example.com";
     phoneNumber := None;
     passwordHash := Some "$2a$10$abcdefghijklmnopqrstuvhunter22";
     authProvider := email_provider;
     createdAt := 1000;
     lastLogin := 1000;
     updatedAt := 1000 |}.

(** The claims [login] signs for her, and the token it issues at 2 s. *)
Definition alice_claims : object :=
  [("userId", VId 0);
   ("email", VStr "alice@example.com");
   ("authProvider", VStr "email")].

Definition alice_token : string :=
  Jwt.sign compact alice_claims JWT_SECRET Jwt.seven_days 2000.

Definition alice_jws : Jwt.jws :=
  {| Jwt.payload :=
       (alice_claims ++ [("iat", VNum 2); ("exp", VNum 604802)])%list;
     Jwt.signed_with := JWT_SECRET |}.

Definition parse : string -> option Jwt.jws := parse_among [alice_jws].

Definition verifyToken :=
  Middleware.verifyToken JWT_SECRET parse verifyIdToken.

(** *** Text beyond ASCII, as its UTF-8 bytes *)

Definition utf8 (bytes : list nat) : string :=
  string_of_list_ascii (map ascii_of_nat bytes).

(** U+00A0, the no-break space, and U+2003, the em space. *)
Definition nbsp : string := utf8 [194; 160].

(** A password of three characters, in nine bytes: U+65E5, U+672C,
    U+8A9E. *)
Definition three_characters : string :=
  utf8 [230; 151; 165; 230; 156; 172; 232; 170; 158].

(** *** A longer run: after Alice, a phone login at 3 s and Bob's
    registration at 4 s. *)

Definition bob : option string := Some "bob@example.com".
Definition bob_password : option string := Some "correct horse".
Definition phone : option string := Some "+15550100".
Definition phone_wrapped : option string :=
  Some (nbsp ++ "+15550100" ++ nbsp).

Definition db_phone_only : db :=
  snd (phone_login (Some "assertion") phone 3000 empty).

Definition db_phone : db :=
  snd (phone_login (Some "assertion") phone_wrapped 3000 db_registered).

Definition db_three : db :=
  snd (register bob bob_password salt1 4000 db_phone).

Definition bob_identity : User :=
  {| _id := 2;
     email := Some "bob@example.com";
     phoneNumber := None;
     passwordHash := Some "$2a$10$abcdefghijklmnopqrstuvcorrect horse";
     authProvider := email_provider;
     createdAt := 4000;
     lastLogin := 4000;
     updatedAt := 4000 |}.

End Sample.

(** ** A sample instantiation of the file schema *)

Module SampleFiles.

(** The driver's cast: 24 hexadecimal digits denote an [ObjectId]. *)
Definition hex_digit (c : ascii) : option nat :=
  let n := nat_of_ascii c in
  if ((48 <=? n) && (n <=? 57))%nat then Some (n - 48)
  else if ((97 <=? n) && (n <=? 102))%nat then Some (n - 87)
  else if ((65 <=? n) && (n <=? 70))%nat then Some (n - 55)
  else None.

Fixpoint hex_value (acc : nat) (s : string) : option nat :=
  match s with
  | EmptyString => Some acc
  | String c s' =>
      match hex_digit c with
      | Some v => hex_value (16 * acc + v) s'
      | None => None
      end
  end.

Definition castObjectId (s : string) : option nat :=
  if (String.length s =? 24)%nat then hex_value 0 s else None.

(** [uploadedAt: { type: Date, default: Date.now }], a [save] that
    throws only for a document without a name, and a stable sort on the
    newest first. *)
Definition uploadedAt_default (now : Z) : value := VNum now.

Definition File_save_error (doc : Files.FileDoc) : option string :=
  if String.eqb (Files.fileName doc) ""
  then Some "File validation failed: fileName: Path `fileName` is required."
  else None.

Definition not_older (a b : Files.FileDoc) : bool :=
  match Files.uploadedAt a, Files.uploadedAt b with
  | VNum x, VNum y => (y <=? x)%Z
  | _, _ => true
  end.

Fixpoint insert_desc (d : Files.FileDoc) (l : list Files.FileDoc)
  : list Files.FileDoc :=
  match l with
  | [] => [d]
  | x :: l' => if not_older d x then d :: l else x :: insert_desc d l'
  end.

Definition sort_uploadedAt_desc (l : list Files.FileDoc)
  : list Files.FileDoc :=
  fold_right insert_desc [] l.

(** [path.extname] on a bare file name: from its last dot on, unless
    that dot is the first character or the name is [..]. *)
Fixpoint from_last_dot (s : string) : option string :=
  match s with
  | EmptyString => None
  | String c s' =>
      match from_last_dot s' with
      | Some e => Some e
      | None => if Ascii.eqb c "." then Some s else None
      end
  end.

Definition extname (name : string) : string :=
  match name with
  | EmptyString => ""
  | String _ rest =>
      if String.eqb name ".." then ""
      else match from_last_dot rest with
           | Some e => e
           | None => ""
           end
  end.

(** A file below the limit passes and one above it does not. *)
Definition within_limit (limit size : Z) : bool := (size <? limit)%Z.

Definition upload := Files.upload uploadedAt_default File_save_error.
Definition list_files := Files.list_files sort_uploadedAt_desc.
Definition delete_file := Files.delete_file castObjectId.
Definition handler :=
  Files.handler Sample.toLowerCase extname within_limit castObjectId
                uploadedAt_default File_save_error sort_uploadedAt_desc.
Definition route :=
  Files.route Sample.JWT_SECRET Sample.parse Sample.verifyIdToken
              Sample.toLowerCase extname within_limit castObjectId
              uploadedAt_default File_save_error sort_uploadedAt_desc.

(** Two principals: Alice as the gate sets her from her token, and a
    principal built from a provider assertion. *)
Definition alice_user : value := VObj (Jwt.payload Sample.alice_jws).

Definition carol_user : value :=
  Middleware.phone_principal
    {| Middleware.uid := "carol-uid";
       Middleware.phone_number := Some "+15550111" |}.

Definition empty : Files.store :=
  {| Files.files := []; Files.next_file_id := 0; Files.disk := [] |}.

Definition report : Files.UploadedFile :=
  {| Files.filename := "file-3000-42.pdf";
     Files.originalname := "report.pdf";
     Files.mimetype := "application/pdf";
     Files.size := 1024 |}.

Definition photo : Files.UploadedFile :=
  {| Files.filename := "file-4000-7.png";
     Files.originalname := "photo.png";
     Files.mimetype := "image/png";
     Files.size := 2048 |}.

(** multer has written both files; Alice's upload is stored first, then
    Carol's. *)
Definition on_disk : Files.store :=
  {| Files.files := [];
     Files.next_file_id := 0;
     Files.disk := ["/uploads/file-3000-42.pdf"; "/uploads/file-4000-7.png"] |}.

Definition store1 : Files.store :=
  snd (upload alice_user (Some report) 3000 on_disk).

Definition store2 : Files.store :=
  snd (upload carol_user (Some photo) 4000 store1).

Definition notes : Files.UploadedFile :=
  {| Files.filename := "file-5000-9.txt";
     Files.originalname := "notes.txt";
     Files.mimetype := "text/plain";
     Files.size := 64 |}.

(** Alice uploads a second file, after Carol's. *)
Definition store3 : Files.store :=
  snd (upload alice_user (Some notes) 5000 store2).

Definition report_doc : Files.FileDoc :=
  {| Files.file_id := 0;
     Files.userId := VId 0;
     Files.fileName := "file-3000-42.pdf";
     Files.originalName := "report.pdf";
     Files.fileType := "application/pdf";
     Files.fileSize := 1024;
     Files.fileUrl := "/uploads/file-3000-42.pdf";
     Files.uploadedAt := VNum 3000 |}.

(** File parts as clients send them. *)
Definition report_part : Files.Part :=
  {| Files.part_originalname := "report.pdf";
     Files.part_mimetype := "application/pdf";
     Files.part_size := 1024 |}.

Definition virus_part : Files.Part :=
  {| Files.part_originalname := "virus.EXE";
     Files.part_mimetype := "application/octet-stream";
     Files.part_size := 512 |}.

Definition film_part : Files.Part :=
  {| Files.part_originalname := "film.mkv";
     Files.part_mimetype := "video/x-matroska";
     Files.part_size := 50 * 1024 * 1024 + 1 |}.

Definition report_id : string := "000000000000000000000000".
Definition photo_id : string := "000000000000000000000001".

(** The token a first phone login at 3 s signs for [+15550100]. *)
Definition phone_jws : Jwt.jws :=
  Session.signed (Session.phone_claims 0 "+15550100") Sample.JWT_SECRET 3000.

(** The token a second phone login under that number signs at 5 s. *)
Definition phone_jws_again : Jwt.jws :=
  Session.signed (Session.phone_claims 0 "+15550100") Sample.JWT_SECRET 5000.

Definition parse_phone : string -> option Jwt.jws :=
  Sample.parse_among [phone_jws; phone_jws_again].

End SampleFiles.

Example sample_isEmail_ok : Sample.isEmail "Alice@Example.com" = true.
Proof. reflexivity. Qed.
Example sample_isEmail_leading_space :
  Sample.isEmail " alice@example.com" = false.
Proof. reflexivity. Qed.
Example sample_isEmail_trailing_space :
  Sample.isEmail "alice@example.com " = false.
Proof. reflexivity. Qed.
Example sample_isEmail_no_tld : Sample.isEmail "alice@example" = false.
Proof. reflexivity. Qed.
Example sample_bcrypt_roundtrip :
  Sample.bcrypt_compare "hunter22" (Sample.bcrypt_hash "hunter22" Sample.salt1)
  = true.
Proof. reflexivity. Qed.
Example sample_bcrypt_mismatch :
  Sample.bcrypt_compare "hunter23" (Sample.bcrypt_hash "hunter22" Sample.salt1)
  = false.
Proof. reflexivity. Qed.
Example trim_example : trim "  a b  " = "a b".
Proof. reflexivity. Qed.

(** * Properties *)

(** ** Strings and objects *)

Lemma substring_all (s : string) : String.substring 0 (String.length s) s = s.
Proof. induction s as [|c s IH]; simpl; [reflexivity | now rewrite IH]. Qed.

Lemma startsWith_append (p s : string) : startsWith (p ++ s) p = true.
Proof.
  unfold startsWith. induction p as [|c p IH]; simpl.
  - now destruct s.
  - destruct (Ascii.ascii_dec c c) as [_|ne]; [exact IH | now elim ne].
Qed.

Lemma substring_from_append (p s : string) :
  substring_from (String.length p) (p ++ s) = s.
Proof.
  unfold substring_from. induction p as [|c p IH]; simpl.
  - rewrite Nat.sub_0_r. apply substring_all.
  - exact IH.
Qed.

(** The token of a [Bearer] header is what follows the scheme. *)
Lemma bearer_token (token : string) :
  startsWith ("Bearer " ++ token) "Bearer " = true
  /\ substring_from 7 ("Bearer " ++ token) = token.
Proof.
  split; [apply startsWith_append |].
  exact (substring_from_append "Bearer " token).
Qed.

(** A property the object does not have is read from what is appended. *)
Lemma get_app (k : string) (a b : object) :
  existsb (String.eqb k) (map fst a) = false ->
  get k (a ++ b)%list = get k b.
Proof.
  induction a as [|[k' v] a IH]; simpl; [reflexivity |].
  destruct (String.eqb k k'); simpl; [discriminate | exact IH].
Qed.

(** ** [trim] is a projection *)

Lemma trimStart_eq (s : string) :
  trimStart s = match ws_prefix s with
                | Some r => trimStart r
                | None => s
                end.
Proof.
  destruct s as [|c1 [|c2 [|c3 r]]]; cbn [trimStart ws_prefix];
    try reflexivity.
  - now destruct (is_space c1).
  - destruct (is_space c1); [reflexivity |]. now destruct (is_space2 c1 c2).
  - destruct (is_space c1); [reflexivity |].
    destruct (is_space2 c1 c2); [reflexivity |].
    now destruct (is_space3 c1 c2 c3).
Qed.

Lemma all_space_eq (s : string) :
  all_space s = match ws_prefix s with
                | Some r => all_space r
                | None => String.eqb s ""
                end.
Proof.
  destruct s as [|c1 [|c2 [|c3 r]]]; cbn [all_space ws_prefix];
    try reflexivity.
  - now destruct (is_space c1).
  - destruct (is_space c1); [reflexivity |]. now destruct (is_space2 c1 c2).
  - destruct (is_space c1); [reflexivity |].
    destruct (is_space2 c1 c2); [reflexivity |].
    now destruct (is_space3 c1 c2 c3).
Qed.

(** White space at the front is one character, of one to three bytes. *)
Lemma ws_prefix_split (s r : string) :
  ws_prefix s = Some r ->
  exists w, s = w ++ r /\ w <> "" /\ all_space w = true.
Proof.
  destruct s as [|c1 [|c2 [|c3 t]]]; cbn [ws_prefix]; try discriminate.
  - destruct (is_space c1) eqn:E1; [|discriminate]. intros [= <-].
    exists (String c1 ""). cbn. now rewrite E1.
  - destruct (is_space c1) eqn:E1.
    + intros [= <-]. exists (String c1 ""). cbn. now rewrite E1.
    + destruct (is_space2 c1 c2) eqn:E2; [|discriminate]. intros [= <-].
      exists (String c1 (String c2 "")). cbn. now rewrite E1, E2.
  - destruct (is_space c1) eqn:E1.
    + intros [= <-]. exists (String c1 ""). cbn. now rewrite E1.
    + destruct (is_space2 c1 c2) eqn:E2.
      * intros [= <-]. exists (String c1 (String c2 "")). cbn.
        now rewrite E1, E2.
      * destruct (is_space3 c1 c2 c3) eqn:E3; [|discriminate].
        intros [= <-]. exists (String c1 (String c2 (String c3 ""))).
        cbn. now rewrite E1, E2, E3.
Qed.

Lemma length_append (a b : string) :
  String.length (a ++ b) = String.length a + String.length b.
Proof. induction a as [|c a IH]; simpl; [reflexivity | now rewrite IH]. Qed.

Lemma ws_prefix_shorter (s r : string) :
  ws_prefix s = Some r -> String.length r < String.length s.
Proof.
  intros H. apply ws_prefix_split in H as [w [-> [Hw _]]].
  rewrite length_append. destruct w; [congruence | simpl; lia].
Qed.

Lemma ws_prefix_app (s r t : string) :
  ws_prefix s = Some r -> ws_prefix (s ++ t) = Some (r ++ t).
Proof.
  destruct s as [|c1 [|c2 [|c3 u]]]; cbn [ws_prefix append];
    try discriminate.
  - destruct (is_space c1); [|discriminate]. now intros [= <-].
  - destruct (is_space c1); [now intros [= <-] |].
    destruct (is_space2 c1 c2); [|discriminate].
    intros [= <-]. now destruct t.
  - destruct (is_space c1); [now intros [= <-] |].
    destruct (is_space2 c1 c2); [now intros [= <-] |].
    destruct (is_space3 c1 c2 c3); [|discriminate]. now intros [= <-].
Qed.

(** Induction on a string along [ws_prefix]. *)
Lemma ws_prefix_ind (P : string -> Prop) :
  (forall s, (forall r, ws_prefix s = Some r -> P r) -> P s) ->
  forall s, P s.
Proof.
  intros step s. remember (String.length s) as n eqn:E.
  revert s E. induction n as [n IH] using lt_wf_ind. intros s ->.
  apply step. intros r Hr. apply (IH (String.length r)); [|reflexivity].
  now apply ws_prefix_shorter.
Qed.

Lemma trimStart_no_space (s : string) : ws_prefix (trimStart s) = None.
Proof.
  induction s as [s IH] using ws_prefix_ind.
  rewrite trimStart_eq. destruct (ws_prefix s) as [r|] eqn:E.
  - now apply IH.
  - exact E.
Qed.

Lemma trimStart_fixed (s : string) : ws_prefix s = None -> trimStart s = s.
Proof. intros H. now rewrite trimStart_eq, H. Qed.

Lemma all_space_app (a b : string) :
  all_space a = true -> all_space (a ++ b) = all_space b.
Proof.
  induction a as [a IH] using ws_prefix_ind. intros Ha.
  rewrite all_space_eq in Ha. destruct (ws_prefix a) as [r|] eqn:E.
  - rewrite (all_space_eq (a ++ b)), (ws_prefix_app a r b E).
    now apply IH.
  - apply String.eqb_eq in Ha. now subst.
Qed.

Lemma trimEnd_split (s : string) :
  exists w, s = trimEnd s ++ w /\ all_space w = true.
Proof.
  induction s as [|c s [w [IH Hw]]].
  - now exists "".
  - destruct (all_space (String c s)) eqn:E.
    + exists (String c s). split; [|exact E].
      change (trimEnd (String c s))
        with (if all_space (String c s) then ""
              else String c (trimEnd s)).
      now rewrite E.
    + exists w. split; [|exact Hw].
      change (trimEnd (String c s))
        with (if all_space (String c s) then ""
              else String c (trimEnd s)).
      rewrite E. cbn [append]. now rewrite <- IH.
Qed.

Lemma trimEnd_cons (c : ascii) (s : string) :
  trimEnd (String c s)
  = if all_space (String c s) then "" else String c (trimEnd s).
Proof. reflexivity. Qed.

Lemma trimEnd_idem (s : string) : trimEnd (trimEnd s) = trimEnd s.
Proof.
  induction s as [|c s IH]; [reflexivity |].
  rewrite trimEnd_cons. destruct (all_space (String c s)) eqn:E;
    [reflexivity |].
  rewrite trimEnd_cons, IH.
  destruct (all_space (String c (trimEnd s))) eqn:E'; [|reflexivity].
  destruct (trimEnd_split s) as [w [Hs Hw]].
  assert (C : all_space (String c (trimEnd s) ++ w) = true)
    by now rewrite (all_space_app _ w E').
  cbn [append] in C. rewrite <- Hs in C. congruence.
Qed.

Lemma trimEnd_no_space (s : string) :
  ws_prefix s = None -> ws_prefix (trimEnd s) = None.
Proof.
  intros H. destruct (ws_prefix (trimEnd s)) as [r|] eqn:E; [|reflexivity].
  destruct (trimEnd_split s) as [w [Hs _]].
  apply (ws_prefix_app _ _ w) in E. rewrite <- Hs in E. congruence.
Qed.

Lemma trim_idem (s : string) : trim (trim s) = trim s.
Proof.
  unfold trim.
  rewrite (trimStart_fixed (trimEnd (trimStart s))).
  - apply trimEnd_idem.
  - apply trimEnd_no_space, trimStart_no_space.
Qed.

(** ** The stand-in for [toLowerCase] commutes with [trim] *)

Lemma lower_ascii_cases (c : ascii) :
  Sample.lower_ascii c = c
  \/ (nat_of_ascii c < 128 /\ nat_of_ascii (Sample.lower_ascii c) < 128).
Proof.
  destruct c as [[] [] [] [] [] [] [] []];
    first [left; reflexivity | right; vm_compute; split; lia].
Qed.

Lemma lower_ascii_idem (c : ascii) :
  Sample.lower_ascii (Sample.lower_ascii c) = Sample.lower_ascii c.
Proof. destruct c as [[] [] [] [] [] [] [] []]; reflexivity. Qed.

Lemma is_space_lower (c : ascii) : is_space (Sample.lower_ascii c) = is_space c.
Proof. destruct c as [[] [] [] [] [] [] [] []]; reflexivity. Qed.

Lemma eqb_low (n k : nat) : n < 128 -> 128 <= k -> (n =? k)%nat = false.
Proof. intros. apply Nat.eqb_neq. lia. Qed.

Lemma is_space2_lower (c1 c2 : ascii) :
  is_space2 (Sample.lower_ascii c1) (Sample.lower_ascii c2) = is_space2 c1 c2.
Proof.
  unfold is_space2.
  destruct (lower_ascii_cases c1) as [-> | [A1 B1]];
    [|rewrite (eqb_low _ 194 A1), (eqb_low _ 194 B1) by lia; reflexivity].
  destruct (lower_ascii_cases c2) as [-> | [A2 B2]]; [reflexivity |].
  rewrite (eqb_low _ 160 A2), (eqb_low _ 160 B2) by lia. reflexivity.
Qed.

Lemma is_space3_low1 (c1 c2 c3 : ascii) :
  nat_of_ascii c1 < 128 -> is_space3 c1 c2 c3 = false.
Proof.
  intros A. unfold is_space3. cbv zeta.
  rewrite (eqb_low _ 225 A), (eqb_low _ 226 A), (eqb_low _ 227 A),
    (eqb_low _ 239 A) by lia.
  reflexivity.
Qed.

Lemma is_space3_low2 (c1 c2 c3 : ascii) :
  nat_of_ascii c2 < 128 -> is_space3 c1 c2 c3 = false.
Proof.
  intros A. unfold is_space3. cbv zeta.
  rewrite (eqb_low _ 154 A), (eqb_low _ 128 A), (eqb_low _ 129 A),
    (eqb_low _ 187 A) by lia.
  now rewrite !andb_false_r.
Qed.

Lemma is_space3_low3 (c1 c2 c3 : ascii) :
  nat_of_ascii c3 < 128 -> is_space3 c1 c2 c3 = false.
Proof.
  intros A. unfold is_space3. cbv zeta.
  rewrite (eqb_low _ 128 A), (eqb_low _ 168 A), (eqb_low _ 169 A),
    (eqb_low _ 175 A), (eqb_low _ 159 A), (eqb_low _ 191 A) by lia.
  replace (128 <=? nat_of_ascii c3)%nat with false
    by (symmetry; apply Nat.leb_gt; lia).
  now rewrite !andb_false_r.
Qed.

Lemma is_space3_lower (c1 c2 c3 : ascii) :
  is_space3 (Sample.lower_ascii c1) (Sample.lower_ascii c2)
            (Sample.lower_ascii c3)
  = is_space3 c1 c2 c3.
Proof.
  destruct (lower_ascii_cases c1) as [-> | [A1 B1]];
    [|now rewrite !is_space3_low1].
  destruct (lower_ascii_cases c2) as [-> | [A2 B2]];
    [|now rewrite !is_space3_low2].
  destruct (lower_ascii_cases c3) as [-> | [A3 B3]];
    [reflexivity | now rewrite !is_space3_low3].
Qed.

Lemma toLowerCase_idem (s : string) :
  Sample.toLowerCase (Sample.toLowerCase s) = Sample.toLowerCase s.
Proof.
  induction s as [|c s IH]; simpl; [reflexivity |].
  now rewrite lower_ascii_idem, IH.
Qed.

Lemma ws_prefix_lower (s : string) :
  ws_prefix (Sample.toLowerCase s)
  = option_map Sample.toLowerCase (ws_prefix s).
Proof.
  destruct s as [|c1 [|c2 [|c3 r]]];
    cbn [ws_prefix Sample.toLowerCase]; try reflexivity;
    rewrite is_space_lower; destruct (is_space c1); try reflexivity;
    rewrite is_space2_lower; destruct (is_space2 c1 c2); try reflexivity.
  rewrite is_space3_lower. now destruct (is_space3 c1 c2 c3).
Qed.

Lemma trimStart_lower (s : string) :
  trimStart (Sample.toLowerCase s) = Sample.toLowerCase (trimStart s).
Proof.
  induction s as [s IH] using ws_prefix_ind.
  rewrite trimStart_eq, (trimStart_eq s), ws_prefix_lower.
  destruct (ws_prefix s) as [r|] eqn:E; [|reflexivity].
  now apply IH.
Qed.

Lemma all_space_lower (s : string) :
  all_space (Sample.toLowerCase s) = all_space s.
Proof.
  induction s as [s IH] using ws_prefix_ind.
  rewrite all_space_eq, (all_space_eq s), ws_prefix_lower.
  destruct (ws_prefix s) as [r|] eqn:E; [now apply IH |].
  now destruct s.
Qed.

Lemma trimEnd_lower (s : string) :
  trimEnd (Sample.toLowerCase s) = Sample.toLowerCase (trimEnd s).
Proof.
  induction s as [|c s IH]; [reflexivity |].
  change (Sample.toLowerCase (String c s))
    with (String (Sample.lower_ascii c) (Sample.toLowerCase s)) at 1.
  rewrite !trimEnd_cons.
  change (String (Sample.lower_ascii c) (Sample.toLowerCase s))
    with (Sample.toLowerCase (String c s)).
  rewrite all_space_lower.
  destruct (all_space (String c s)); [reflexivity |].
  now rewrite IH.
Qed.

Lemma trim_lower (s : string) :
  trim (Sample.toLowerCase s) = Sample.toLowerCase (trim s).
Proof. unfold trim. now rewrite trimStart_lower, trimEnd_lower. Qed.

Lemma sample_set_email_idem (s : string) :
  set_email Sample.toLowerCase (set_email Sample.toLowerCase s)
  = set_email Sample.toLowerCase s.
Proof.
  unfold set_email. now rewrite trim_lower, toLowerCase_idem, trim_idem.
Qed.


Lemma set_phoneNumber_idem (s : string) :
  set_phoneNumber (set_phoneNumber s) = set_phoneNumber s.
Proof. apply trim_idem. Qed.

(** ** The gate: [verifyToken] *)

Section GateFacts.
Variable JWT_SECRET : string.
Variable parse : string -> option Jwt.jws.
Variable verifyIdToken : string -> string + Middleware.DecodedIdToken.

Import Middleware.

(** A request without a [Bearer] header is answered at once, and no
    verifier is called. *)
Lemma verifyToken_no_bearer (authorization : option string) (now : Z) :
  match authorization with
  | None => True
  | Some h => h = "" \/ startsWith h "Bearer " = false
  end ->
  verifyToken JWT_SECRET parse verifyIdToken authorization now
  = (Send (send_error 401 "No token provided"), []).
Proof.
  destruct authorization as [h|]; [|reflexivity].
  unfold verifyToken. intros [-> | H]; [reflexivity |].
  rewrite H. now rewrite orb_true_r.
Qed.

(** The answer of the gate to a [Bearer] header, without the calls. *)
Lemma verifyToken_bearer_outcome (token : string) (now : Z) :
  fst (verifyToken JWT_SECRET parse verifyIdToken
                   (Some ("Bearer " ++ token)) now)
  = match Jwt.verify parse token JWT_SECRET now with
    | inr claims => Next (VObj claims)
    | inl _ =>
        match verifyIdToken token with
        | inr assertion => Next (phone_principal assertion)
        | inl _ => Send (send_error 401 "Invalid token")
        end
    end.
Proof.
  destruct (bearer_token token) as [Hp Hs].
  unfold verifyToken.
  replace (truthy (Some ("Bearer " ++ token))) with true by reflexivity.
  rewrite Hp, Hs. simpl.
  destruct (Jwt.verify parse token JWT_SECRET now); [|reflexivity].
  now destruct (verifyIdToken token).
Qed.

(** C1.  On a request that carries [Authorization: Bearer <token>], the
    gate first verifies the token as a session token signed with the
    server secret and, when that succeeds, accepts with the token's
    claims as principal without calling the provider.  Only when that
    verification fails, and whatever the failure is, it verifies the
    token as a provider assertion, and accepts with the principal
    [{userId: uid, phoneNumber: phone_number, authProvider: 'phone'}].
    The request is rejected, with the one answer [401 Invalid token],
    exactly when both verifications fail. *)
Theorem verifyToken_strict_order (token : string) (now : Z) :
  verifyToken JWT_SECRET parse verifyIdToken
              (Some ("Bearer " ++ token)) now
  = match Jwt.verify parse token JWT_SECRET now with
    | inr claims => (Next (VObj claims), [JwtVerify token JWT_SECRET])
    | inl _ =>
        (match verifyIdToken token with
         | inr assertion => Next (phone_principal assertion)
         | inl _ => Send (send_error 401 "Invalid token")
         end,
         [JwtVerify token JWT_SECRET; VerifyIdToken token])
    end.
Proof.
  destruct (bearer_token token) as [Hp Hs].
  unfold verifyToken.
  replace (truthy (Some ("Bearer " ++ token))) with true by reflexivity.
  rewrite Hp, Hs. simpl.
  destruct (Jwt.verify parse token JWT_SECRET now) as [e|claims];
    [|reflexivity].
  destruct (verifyIdToken token); reflexivity.
Qed.

End GateFacts.

(** ** The collection *)

Lemma option_eqb_eq (a b : option string) : option_eqb a b = true <-> a = b.
Proof.
  destruct a as [x|], b as [y|]; simpl; split; try congruence.
  - intros H. apply String.eqb_eq in H. now subst.
  - intros [= ->]. apply String.eqb_refl.
Qed.

Lemma option_eqb_sym (a b : option string) : option_eqb a b = option_eqb b a.
Proof.
  destruct a as [x|], b as [y|]; simpl; auto using String.eqb_sym.
Qed.

Lemma find_snoc {A} (f : A -> bool) (l : list A) (x : A) :
  find f (l ++ [x]) =
  match find f l with
  | Some y => Some y
  | None => if f x then Some x else None
  end.
Proof.
  induction l as [|a l IH]; simpl; [reflexivity |].
  destruct (f a); [reflexivity | exact IH].
Qed.

Lemma find_none_existsb {A} (f : A -> bool) (l : list A) :
  find f l = None -> existsb f l = false.
Proof.
  induction l as [|a l IH]; simpl; [reflexivity |].
  destruct (f a); [discriminate | exact IH].
Qed.

Lemma existsb_pointwise {A} (f g : A -> bool) (l : list A) :
  (forall x, f x = g x) -> existsb f l = existsb g l.
Proof.
  intros H. induction l as [|a l IH]; simpl; [reflexivity |].
  now rewrite H, IH.
Qed.

Section InsertFacts.
Variable toLowerCase : string -> string.

(** Where the lookup by e-mail finds nothing, a new e-mail identity
    violates no unique index. *)
Lemma save_new_email (q : string) (h : option string) (now : Z) (d : db) :
  findOne_email toLowerCase q d = None ->
  let u := new_User toLowerCase (Some q) None h email_provider now d in
  save_new u d = Some {| users := users d ++ [u]; next_id := S (next_id d) |}.
Proof.
  intros H u. unfold save_new.
  replace (existsb (clashes u) (users d)) with false; [reflexivity |].
  symmetry. apply find_none_existsb in H. rewrite <- H.
  apply existsb_pointwise. intros v. unfold clashes, u.
  cbn [new_User email phoneNumber option_map].
  rewrite orb_false_r. apply option_eqb_sym.
Qed.

(** The same for a new phone identity. *)
Lemma save_new_phone (q : string) (now : Z) (d : db) :
  findOne_phoneNumber q d = None ->
  let u := new_User toLowerCase None (Some q) None phone_provider now d in
  save_new u d = Some {| users := users d ++ [u]; next_id := S (next_id d) |}.
Proof.
  intros H u. unfold save_new.
  replace (existsb (clashes u) (users d)) with false; [reflexivity |].
  symmetry. apply find_none_existsb in H. rewrite <- H.
  apply existsb_pointwise. intros v. unfold clashes, u.
  cbn [new_User email phoneNumber option_map orb].
  apply option_eqb_sym.
Qed.

End InsertFacts.

Lemma findOne_email_inserted (toLowerCase : string -> string)
      (q : string) (u : User) (d : db) (n : nat) :
  findOne_email toLowerCase q d = None ->
  email u = Some (set_email toLowerCase q) ->
  findOne_email toLowerCase q {| users := users d ++ [u]; next_id := n |}
  = Some u.
Proof.
  unfold findOne_email. simpl. intros H E.
  rewrite find_snoc, H, E. simpl. now rewrite String.eqb_refl.
Qed.

Lemma findOne_phoneNumber_inserted (q : string) (u : User) (d : db) (n : nat) :
  findOne_phoneNumber q d = None ->
  phoneNumber u = Some (set_phoneNumber q) ->
  findOne_phoneNumber q {| users := users d ++ [u]; next_id := n |} = Some u.
Proof.
  unfold findOne_phoneNumber. simpl. intros H E.
  rewrite find_snoc, H, E. simpl. now rewrite String.eqb_refl.
Qed.

(** ** [POST /register] *)

Section RegisterFacts.
Variable toLowerCase : string -> string.
Variable isEmail : string -> bool.
Variable normalizeEmail : string -> string.
Variable bcrypt_hash : string -> string -> string.

Let register := Routes.register toLowerCase isEmail normalizeEmail bcrypt_hash.

(** C5.  A malformed e-mail or a password of fewer than 6 characters,
    as [isLength] counts them, is answered [400] and the collection is
    left as it was.  For a well-formed e-mail that is not yet
    registered and a password of at least 6 characters, [register]
    answers [201] with a body that holds no token, and adds exactly one
    identity: [authProvider = email], the hash of the password as
    [passwordHash].  Registering the same e-mail again, with any
    password of at least 6 characters, any salt and any time, is
    answered [400 User already registered] and adds nothing. *)
Theorem register_once (e p : option string) (salt : string) (now : Z)
        (d : db) :
  (isEmail (to_string e) = false
   \/ (isLength_count (to_string p) < 6)%nat ->
   register e p salt now d
   = (send_error 400 "Invalid email or password format", d))
  /\
  (isEmail (to_string e) = true ->
   (6 <= isLength_count (to_string p))%nat ->
   findOne_email toLowerCase (normalizeEmail (to_string e)) d = None ->
   let d' := {| users := users d
                         ++ [registered toLowerCase normalizeEmail
                                        bcrypt_hash e p salt now d];
                next_id := S (next_id d) |} in
   register e p salt now d
   = ({| status := 201;
         body := VObj [("message", VStr "Registration successful");
                       ("success", VBool true)] |}, d')
   /\
   forall (p' : option string) (salt' : string) (now' : Z),
     (6 <= isLength_count (to_string p'))%nat ->
     register e p' salt' now' d'
     = (send_error 400 "User already registered. Please login.", d')).
Proof.
  split.
  - unfold register, Routes.register, isLength_min6. intros [H | H].
    + now rewrite H.
    + apply Nat.leb_gt in H. rewrite H. now rewrite andb_false_r.
  - intros He Hp Hnone d'.
    assert (Hins : findOne_email toLowerCase (normalizeEmail (to_string e)) d'
                   = Some (registered toLowerCase normalizeEmail bcrypt_hash
                                      e p salt now d)).
    { apply findOne_email_inserted; [exact Hnone | reflexivity]. }
    unfold register, Routes.register, isLength_min6. split.
    + rewrite He. apply Nat.leb_le in Hp. rewrite Hp. simpl.
      rewrite Hnone.
      rewrite (save_new_email _ _ (Some (bcrypt_hash (to_string p) salt))
                              now d Hnone).
      reflexivity.
    + intros p' salt' now' Hp'. rewrite He.
      apply Nat.leb_le in Hp'. rewrite Hp'. simpl.
      now rewrite Hins.
Qed.

End RegisterFacts.

(** ** Invariants of the collection *)

Lemma same_identity_refl (u : User) : same_identity u u.
Proof. repeat split. Qed.

Lemma same_identity_touch (u : User) (now : Z) : same_identity u (touch u now).
Proof. repeat split. Qed.

Lemma NoDup_map_eq {A B} (f : A -> B) (l : list A) (x y : A) :
  NoDup (map f l) -> In x l -> In y l -> f x = f y -> x = y.
Proof.
  induction l as [|a l IH]; simpl; [contradiction |].
  intros Hnd Hx Hy E. inversion Hnd as [|? ? Hnotin Hnd']; subst.
  destruct Hx as [-> | Hx], Hy as [-> | Hy]; auto.
  - elim Hnotin. rewrite E. now apply in_map.
  - elim Hnotin. rewrite <- E. now apply in_map.
Qed.

(** With unique identifiers, saving an updated document rewrites that
    document and no other. *)
Lemma save_existing_touch (u : User) (now : Z) (d : db) :
  NoDup (map _id (users d)) -> In u (users d) ->
  users (save_existing (touch u now) d)
  = map (fun v => if (_id v =? _id u)%nat then touch v now else v) (users d).
Proof.
  intros Hnd Hin. unfold save_existing. simpl.
  apply map_ext_in. intros v Hv.
  destruct (Nat.eqb_spec (_id v) (_id u)) as [E|]; [|reflexivity].
  now rewrite (NoDup_map_eq _id (users d) v u Hnd Hv Hin E).
Qed.

Lemma touch_map_ids (u : User) (now : Z) (l : list User) :
  map _id (map (fun v => if (_id v =? _id u)%nat then touch v now else v) l)
  = map _id l.
Proof.
  rewrite map_map. apply map_ext. intros v.
  now destruct (_id v =? _id u)%nat.
Qed.

Lemma consistent_touch (u : User) (now : Z) (d : db) :
  consistent d -> In u (users d) ->
  consistent (save_existing (touch u now) d).
Proof.
  intros [Hwf Hids Hfr] Hin.
  pose proof (save_existing_touch u now d Hids Hin) as E.
  split; rewrite E.
  - apply Forall_map. eapply Forall_impl; [|exact Hwf].
    intros v Hv. now destruct (_id v =? _id u)%nat.
  - now rewrite touch_map_ids.
  - apply Forall_map. eapply Forall_impl; [|exact Hfr].
    intros v Hv. now destruct (_id v =? _id u)%nat.
Qed.

Lemma consistent_insert (u : User) (d : db) :
  consistent d -> well_formed u -> _id u = next_id d ->
  consistent {| users := users d ++ [u]; next_id := S (next_id d) |}.
Proof.
  intros [Hwf Hids Hfr] Hu Hid. split; simpl.
  - apply Forall_app. split; [exact Hwf | now constructor].
  - rewrite map_app. simpl. apply NoDup_app.
    repeat split.
    + exact Hids.
    + constructor; [intros [] | constructor].
    + intros x Hx [<-|[]]. apply in_map_iff in Hx as [v [E Hv]].
      rewrite Forall_forall in Hfr. specialize (Hfr v Hv). lia.
  - apply Forall_app. split.
    + eapply Forall_impl; [|exact Hfr]. simpl. intros; lia.
    + constructor; [simpl; lia | constructor].
Qed.

(** ** Runs of the router *)

Section RouterFacts.
Variable toLowerCase : string -> string.
Variable JWT_SECRET : string.
Variable compact : Jwt.jws -> string.
Variable isEmail : string -> bool.
Variable normalizeEmail : string -> string.
Variable bcrypt_hash : string -> string -> string.
Variable bcrypt_compare : string -> string -> bool.

Let register := Routes.register toLowerCase isEmail normalizeEmail bcrypt_hash.
Let login :=
  Routes.login toLowerCase JWT_SECRET compact isEmail normalizeEmail
               bcrypt_compare.
Let phone_login := Routes.phone_login toLowerCase JWT_SECRET compact.
Let handle :=
  Routes.handle toLowerCase JWT_SECRET compact isEmail normalizeEmail
                bcrypt_hash bcrypt_compare.
Let reachable :=
  Routes.reachable toLowerCase JWT_SECRET compact isEmail normalizeEmail
                   bcrypt_hash bcrypt_compare.

Lemma truthy_some (x : option string) :
  truthy x = true -> exists s, x = Some s /\ s <> "".
Proof.
  destruct x as [s|]; simpl; [|discriminate].
  intros H. exists s. split; [reflexivity |].
  intros ->. discriminate.
Qed.

Lemma findOne_email_in (q : string) (d : db) (u : User) :
  findOne_email toLowerCase q d = Some u ->
  In u (users d) /\ email u = Some (set_email toLowerCase q).
Proof.
  intros H. apply find_some in H as [Hin E].
  split; [exact Hin | now apply option_eqb_eq].
Qed.

Lemma findOne_phoneNumber_in (q : string) (d : db) (u : User) :
  findOne_phoneNumber q d = Some u ->
  In u (users d) /\ phoneNumber u = Some (set_phoneNumber q).
Proof.
  intros H. apply find_some in H as [Hin E].
  split; [exact Hin | now apply option_eqb_eq].
Qed.

Lemma register_consistent e p salt now d :
  consistent d -> consistent (snd (register e p salt now d)).
Proof.
  intros Hc. unfold register, Routes.register.
  destruct (negb _); [exact Hc |].
  destruct (findOne_email toLowerCase _ d) eqn:Hf; [exact Hc |].
  rewrite (save_new_email _ _ _ now d Hf). simpl.
  apply consistent_insert; [exact Hc | discriminate | reflexivity].
Qed.

Lemma login_consistent e p now d :
  consistent d -> consistent (snd (login e p now d)).
Proof.
  intros Hc. unfold login, Routes.login.
  destruct (negb _); [exact Hc |].
  destruct (findOne_email toLowerCase _ d) as [u|] eqn:Hf; [|exact Hc].
  destruct (passwordHash u); [|exact Hc].
  destruct (negb _); [exact Hc |]. simpl.
  apply consistent_touch; [exact Hc |].
  now apply findOne_email_in in Hf.
Qed.

Lemma phone_login_consistent t p now d :
  consistent d -> consistent (snd (phone_login t p now d)).
Proof.
  intros Hc. unfold phone_login, Routes.phone_login.
  destruct (truthy t); [|exact Hc].
  destruct (truthy p) eqn:Hp; [|exact Hc]. simpl.
  apply truthy_some in Hp as [s [-> _]]. simpl.
  destruct (findOne_phoneNumber s d) as [u|] eqn:Hf.
  - simpl. apply consistent_touch; [exact Hc |].
    now apply findOne_phoneNumber_in in Hf.
  - rewrite (save_new_phone _ _ now d Hf). simpl.
    apply consistent_insert; [exact Hc | now split | reflexivity].
Qed.

Lemma handle_consistent r now d :
  consistent d -> consistent (snd (handle r now d)).
Proof.
  destruct r; simpl.
  - apply register_consistent.
  - apply login_consistent.
  - apply phone_login_consistent.
Qed.

Lemma reachable_consistent d : reachable d -> consistent d.
Proof.
  induction 1 as [|d r now _ IH].
  - split; simpl; constructor.
  - now apply handle_consistent.
Qed.

End RouterFacts.

Section RouterClaims.
Variable toLowerCase : string -> string.
Variable JWT_SECRET : string.
Variable compact : Jwt.jws -> string.
Variable isEmail : string -> bool.
Variable normalizeEmail : string -> string.
Variable bcrypt_hash : string -> string -> string.
Variable bcrypt_compare : string -> string -> bool.

Let login :=
  Routes.login toLowerCase JWT_SECRET compact isEmail normalizeEmail
               bcrypt_compare.
Let phone_login := Routes.phone_login toLowerCase JWT_SECRET compact.
Let handle :=
  Routes.handle toLowerCase JWT_SECRET compact isEmail normalizeEmail
                bcrypt_hash bcrypt_compare.
Let reachable :=
  Routes.reachable toLowerCase JWT_SECRET compact isEmail normalizeEmail
                   bcrypt_hash bcrypt_compare.

(** *** [POST /login] *)

(** C4 (amended).  A body that fails validation, by an address that
    [isEmail] refuses or by an empty password, is answered [400] before
    anything is looked up.  For a body that passes validation, [login]
    answers [404] when no identity is stored under the e-mail, and
    [401] when the password does not match the stored hash.  In all
    three cases the body is an error message, so no token is issued,
    and the collection is returned as it was: in particular [lastLogin]
    of the identity is not updated. *)
Theorem login_failures (e p : option string) (now : Z) (d : db) :
  (isEmail (to_string e) = false \/ to_string p = "" ->
   login e p now d
   = (send_error 400 "Invalid email or password format", d))
  /\
  (isEmail (to_string e) = true ->
   to_string p <> "" ->
   (findOne_email toLowerCase (normalizeEmail (to_string e)) d = None ->
    login e p now d
    = (send_error 404 "User not registered. Please register first.", d))
   /\
   (forall (u : User) (h : string),
       findOne_email toLowerCase (normalizeEmail (to_string e)) d = Some u ->
       passwordHash u = Some h ->
       bcrypt_compare (to_string p) h = false ->
       login e p now d = (send_error 401 "Incorrect password.", d))).
Proof.
  unfold login, Routes.login, notEmpty. split.
  - intros [H | H]; rewrite H; [reflexivity |].
    now rewrite andb_false_r.
  - intros He Hp. apply String.eqb_neq in Hp.
    rewrite He, Hp. simpl. split.
    + now intros ->.
    + intros u h -> -> ->. reflexivity.
Qed.

(** C6.  On a successful login against a collection the router has
    built, the answer is [200] and its token is the signature, under the
    server secret, of exactly three claims of the stored identity [u],
    [userId = u._id], [email = u.email] and [authProvider =
    u.authProvider], stamped with the second of issuance as [iat] and
    with [exp = iat + 604800], seven days later.  [u.email] is the
    normalised address of the request. *)
Theorem login_token_payload (e p : option string) (now : Z) (d : db)
        (u : User) (h : string) :
  reachable d ->
  isEmail (to_string e) = true ->
  to_string p <> "" ->
  findOne_email toLowerCase (normalizeEmail (to_string e)) d = Some u ->
  passwordHash u = Some h ->
  bcrypt_compare (to_string p) h = true ->
  login e p now d
  = ({| status := 200;
        body := VObj
          [("token",
            VStr (compact
              {| Jwt.payload :=
                   [("userId", VId (_id u));
                    ("email", Middleware.of_optional (email u));
                    ("authProvider",
                     VStr (provider_name (authProvider u)));
                    ("iat", VNum (now / 1000));
                    ("exp", VNum (now / 1000 + 604800))];
                 Jwt.signed_with := JWT_SECRET |}));
           ("user", VObj
              [("id", VId (_id u));
               ("email", Middleware.of_optional (email u));
               ("authProvider",
                VStr (provider_name (authProvider u)))])] |},
     save_existing (touch u now) d)
  /\ email u = Some (set_email toLowerCase (normalizeEmail (to_string e))).
Proof.
  intros Hr He Hp Hf Hh Hc. apply String.eqb_neq in Hp.
  pose proof (reachable_consistent _ _ _ _ _ _ _ d Hr) as [Hwf _ _].
  apply findOne_email_in in Hf as Hu. destruct Hu as [Hin Hmail].
  rewrite Forall_forall in Hwf. specialize (Hwf u Hin).
  assert (Hprov : authProvider u = email_provider).
  { unfold well_formed in Hwf. destruct (authProvider u); [reflexivity |].
    destruct Hwf as [_ Hnone]. congruence. }
  split; [|exact Hmail].
  unfold login, Routes.login, notEmpty.
  rewrite He, Hp, Hf, Hh, Hc. simpl.
  rewrite Hprov. reflexivity.
Qed.

End RouterClaims.

(** *** [POST /phone-login] *)

Lemma find_after_touch (f : User -> bool) (u0 : User) (now : Z)
      (l : list User) :
  (forall v, f (touch v now) = f v) ->
  find f l = Some u0 ->
  find f (map (fun v => if (_id v =? _id (touch u0 now))%nat
                        then touch u0 now else v) l)
  = Some (touch u0 now).
Proof.
  intros Hf. induction l as [|a l IH]; simpl; [discriminate |].
  destruct (f a) eqn:Ha.
  - intros [= ->]. rewrite Nat.eqb_refl. now rewrite Hf, Ha.
  - intros H. destruct (_id a =? _id u0)%nat.
    + rewrite Hf. apply find_some in H as [_ ->]. reflexivity.
    + rewrite Ha. now apply IH.
Qed.

Section PhoneLoginFacts.
Variable toLowerCase : string -> string.
Variable JWT_SECRET : string.
Variable compact : Jwt.jws -> string.

Let phone_login := Routes.phone_login toLowerCase JWT_SECRET compact.

(** The answer of a successful phone login for the identity [u]. *)
Let session (u : User) (now : Z) : response :=
  {| status := 200;
     body := VObj
       [("token",
         VStr (Jwt.sign compact
                 [("userId", VId (_id u));
                  ("phoneNumber",
                   Middleware.of_optional (phoneNumber u));
                  ("authProvider", VStr "phone")]
                 JWT_SECRET Jwt.seven_days now));
        ("user", VObj
           [("id", VId (_id u));
            ("phoneNumber", Middleware.of_optional (phoneNumber u));
            ("authProvider",
             VStr (provider_name (authProvider u)))])] |}.

(** C3.  A phone login whose two fields are present always answers
    [200] with a session token.  When no identity is stored under the
    phone number, exactly one identity is added, with
    [authProvider = phone] and no password hash, and the token is for
    it; a later lookup of the number finds it.  When an identity is
    stored under the number, none is added: the token carries that
    identity's [_id], and the stored identity's [lastLogin] is set to
    the time of the request. *)
Theorem phone_login_create_or_update (idToken phoneNumber : option string)
        (now : Z) (d : db) :
  truthy idToken = true ->
  truthy phoneNumber = true ->
  match findOne_phoneNumber (to_string phoneNumber) d with
  | None =>
      let u := {| _id := next_id d;
                  email := None;
                  Model.phoneNumber := Some (trim (to_string phoneNumber));
                  passwordHash := None;
                  authProvider := phone_provider;
                  createdAt := now;
                  lastLogin := now;
                  updatedAt := now |} in
      let d' := {| users := users d ++ [u]; next_id := S (next_id d) |} in
      phone_login idToken phoneNumber now d = (session u now, d')
      /\ findOne_phoneNumber (to_string phoneNumber) d' = Some u
  | Some u0 =>
      let u := touch u0 now in
      let d' := snd (phone_login idToken phoneNumber now d) in
      phone_login idToken phoneNumber now d
      = (session u now, save_existing u d)
      /\ List.length (users d') = List.length (users d)
      /\ findOne_phoneNumber (to_string phoneNumber) d' = Some u
      /\ _id u = _id u0
      /\ lastLogin u = now
  end.
Proof.
  intros Ht Hp.
  apply truthy_some in Hp as Hs. destruct Hs as [s [-> _]].
  unfold phone_login, Routes.phone_login. rewrite Ht, Hp. simpl.
  destruct (findOne_phoneNumber s d) as [u0|] eqn:Hf; simpl.
  - repeat split.
    + unfold save_existing. simpl. apply length_map.
    + unfold findOne_phoneNumber, save_existing. simpl.
      apply (find_after_touch _ u0 now (users d)); [reflexivity | exact Hf].
  - rewrite (save_new_phone _ s now d Hf). simpl. split; [reflexivity |].
    now apply findOne_phoneNumber_inserted.
Qed.

(** The handler never reads the assertion: any two non-empty values of
    [idToken] give the same answer and the same collection. *)
Lemma phone_login_ignores_idToken (t t' phoneNumber : option string)
      (now : Z) (d : db) :
  truthy t = true -> truthy t' = true ->
  phone_login t phoneNumber now d = phone_login t' phoneNumber now d.
Proof.
  intros H H'. unfold phone_login, Routes.phone_login.
  now rewrite H, H'.
Qed.

End PhoneLoginFacts.

(** ** Identities keep their credentials *)

Lemma keeps_refl (d : db) : keeps d d.
Proof. intros i u H. exists u. split; [exact H | apply same_identity_refl]. Qed.

Lemma keeps_insert (d : db) (x : User) (n : nat) :
  keeps d {| users := users d ++ [x]; next_id := n |}.
Proof.
  intros i u H. exists u. split; [|apply same_identity_refl]. simpl.
  rewrite nth_error_app1; [exact H |].
  apply nth_error_Some. congruence.
Qed.

Lemma keeps_touch (d : db) (u : User) (now : Z) :
  NoDup (map _id (users d)) -> In u (users d) ->
  keeps d (save_existing (touch u now) d).
Proof.
  intros Hnd Hin i v H. rewrite (save_existing_touch u now d Hnd Hin).
  rewrite nth_error_map, H. simpl.
  destruct (_id v =? _id u)%nat; eexists; split; try reflexivity.
  - apply same_identity_touch.
  - apply same_identity_refl.
Qed.

Section InvariantClaims.
Variable toLowerCase : string -> string.
Variable JWT_SECRET : string.
Variable compact : Jwt.jws -> string.
Variable isEmail : string -> bool.
Variable normalizeEmail : string -> string.
Variable bcrypt_hash : string -> string -> string.
Variable bcrypt_compare : string -> string -> bool.

Let handle :=
  Routes.handle toLowerCase JWT_SECRET compact isEmail normalizeEmail
                bcrypt_hash bcrypt_compare.
Let reachable :=
  Routes.reachable toLowerCase JWT_SECRET compact isEmail normalizeEmail
                   bcrypt_hash bcrypt_compare.

Lemma handle_keeps (r : request) (now : Z) (d : db) :
  consistent d -> keeps d (snd (handle r now d)).
Proof.
  intros [_ Hids _]. destruct r as [e p salt | e p | t p]; simpl.
  - unfold Routes.register.
    destruct (negb _); [apply keeps_refl |].
    destruct (findOne_email toLowerCase _ d) eqn:Hf; [apply keeps_refl |].
    rewrite (save_new_email _ _ _ now d Hf). apply keeps_insert.
  - unfold Routes.login.
    destruct (negb _); [apply keeps_refl |].
    destruct (findOne_email toLowerCase _ d) as [u|] eqn:Hf;
      [|apply keeps_refl].
    destruct (passwordHash u); [|apply keeps_refl].
    destruct (negb _); [apply keeps_refl |]. simpl.
    apply keeps_touch; [exact Hids |].
    now apply findOne_email_in in Hf.
  - unfold Routes.phone_login.
    destruct (truthy t); [|apply keeps_refl].
    destruct (truthy p) eqn:Hp; [|apply keeps_refl]. simpl.
    apply truthy_some in Hp as [s [-> _]]. simpl.
    destruct (findOne_phoneNumber s d) as [u|] eqn:Hf.
    + simpl. apply keeps_touch; [exact Hids |].
      now apply findOne_phoneNumber_in in Hf.
    + rewrite (save_new_phone _ _ now d Hf). simpl. apply keeps_insert.
Qed.

(** C8.  In every collection the router can reach through [register],
    [login] and [phone-login], an identity with [authProvider = phone]
    carries no password hash and one with [authProvider = email]
    carries one; and whatever request is handled next, every stored
    identity is still stored, at its place, with the same [_id], the
    same [authProvider] and the same [passwordHash]. *)
Theorem credentials_follow_authProvider (d : db) :
  reachable d ->
  Forall (fun u =>
            match authProvider u with
            | phone_provider => passwordHash u = None
            | email_provider => passwordHash u <> None
            end) (users d)
  /\
  forall (r : request) (now : Z) (i : nat) (u : User),
    nth_error (users d) i = Some u ->
    exists u',
      nth_error (users (snd (handle r now d))) i = Some u'
      /\ _id u' = _id u
      /\ authProvider u' = authProvider u
      /\ passwordHash u' = passwordHash u.
Proof.
  intros Hr.
  pose proof (reachable_consistent _ _ _ _ _ _ _ d Hr) as Hc.
  split.
  - destruct Hc as [Hwf _ _]. eapply Forall_impl; [|exact Hwf].
    intros u. unfold well_formed.
    destruct (authProvider u); [tauto | now intros [H _]].
  - intros r now i u H.
    destruct (handle_keeps r now d Hc i u H) as [u' [H' S]].
    exists u'. unfold same_identity in S. tauto.
Qed.

End InvariantClaims.

(** ** The sample run *)

Example sample_register :
  Sample.register Sample.alice Sample.alice_password Sample.salt1 1000 empty
  = ({| status := 201;
        body := VObj [("message", VStr "Registration successful");
                      ("success", VBool true)] |},
     {| users := [{| _id := 0;
                     email := Some "alice@example.com";
                     phoneNumber := None;
                     passwordHash :=
                       Some "$2a$10$abcdefghijklmnopqrstuvhunter22";
                     authProvider := email_provider;
                     createdAt := 1000;
                     lastLogin := 1000;
                     updatedAt := 1000 |}];
        next_id := 1 |}).
Proof. reflexivity. Qed.

Example sample_login :
  Sample.login Sample.alice Sample.alice_password 2000 Sample.db_registered
  = ({| status := 200;
        body := VObj
          [("token", VStr Sample.alice_token);
           ("user", VObj [("id", VId 0);
                          ("email", VStr "alice@example.com");
                          ("authProvider", VStr "email")])] |},
     {| users := [{| _id := 0;
                     email := Some "alice@example.com";
                     phoneNumber := None;
                     passwordHash :=
                       Some "$2a$10$abcdefghijklmnopqrstuvhunter22";
                     authProvider := email_provider;
                     createdAt := 1000;
                     lastLogin := 2000;
                     updatedAt := 2000 |}];
        next_id := 1 |}).
Proof. reflexivity. Qed.

Example sample_token_parses :
  Sample.parse Sample.alice_token = Some Sample.alice_jws.
Proof. reflexivity. Qed.

Example sample_token_text :
  Sample.alice_token
  = "{userId:oid0;email:'alice@example.com';authProvider:'email';iat:2;exp:604802;}.your-secret-key-change-in-production".
Proof. reflexivity. Qed.

(** ** Expiry of a session token *)

Section ExpiryClaims.
Variable JWT_SECRET : string.
Variable compact : Jwt.jws -> string.
Variable parse : string -> option Jwt.jws.
Variable verifyIdToken : string -> string + Middleware.DecodedIdToken.

Import Middleware.

Let gate (token : string) (now : Z) : outcome :=
  fst (verifyToken JWT_SECRET parse verifyIdToken
                   (Some ("Bearer " ++ token)) now).

(** What [jwt.verify] answers for a token signed with the secret whose
    [exp] claim is [exp]. *)
Lemma verify_signed (token : string) (now exp : Z) (j : Jwt.jws) :
  parse token = Some j ->
  Jwt.signed_with j = JWT_SECRET ->
  get "exp" (Jwt.payload j) = VNum exp ->
  Jwt.verify parse token JWT_SECRET now
  = if (exp <=? now / 1000)%Z
    then inl (Jwt.TokenExpiredError (exp * 1000))
    else inr (Jwt.payload j).
Proof.
  intros Hp Hs He. unfold Jwt.verify, Jwt.clockTimestamp.
  rewrite Hp, Hs, String.eqb_refl, He. reflexivity.
Qed.

(** C7 (amended).  A token issued at [issued] (milliseconds)
    carries [exp = floor(issued / 1000) + 604800].  The gate accepts
    it, with its claims as principal, as long as the current second is
    strictly below [exp]; from the second [exp] on, which includes the
    instant exactly seven days after issuance and one second past
    expiry, the session check fails and, the provider not recognising
    the token either, the request is answered [401 Invalid token]. *)
Theorem session_token_expiry (claims : object) (issued now : Z)
        (m : string) :
  let token := Jwt.sign compact claims JWT_SECRET Jwt.seven_days issued in
  let exp := (issued / 1000 + 604800)%Z in
  let signed :=
    (claims ++ [("iat", VNum (issued / 1000)); ("exp", VNum exp)])%list in
  existsb (String.eqb "exp") (map fst claims) = false ->
  parse token = Some {| Jwt.payload := signed;
                        Jwt.signed_with := JWT_SECRET |} ->
  verifyIdToken token = inl m ->
  ((now / 1000 < exp)%Z -> gate token now = Next (VObj signed))
  /\ ((exp <= now / 1000)%Z ->
      gate token now = Send (send_error 401 "Invalid token"))
  /\ gate token (issued + 7 * 24 * 60 * 60 * 1000)
     = Send (send_error 401 "Invalid token")
  /\ gate token ((exp + 1) * 1000)
     = Send (send_error 401 "Invalid token").
Proof.
  intros token exp signed Hfresh Hparse Hprov.
  assert (Hexp : get "exp" signed = VNum exp).
  { unfold signed. rewrite (get_app "exp" claims _ Hfresh). reflexivity. }
  assert (G : forall t,
             gate token t
             = if (exp <=? t / 1000)%Z
               then Send (send_error 401 "Invalid token")
               else Next (VObj signed)).
  { intros t. unfold gate.
    rewrite verifyToken_bearer_outcome.
    rewrite (verify_signed token t exp _ Hparse eq_refl Hexp).
    destruct (exp <=? t / 1000)%Z; [now rewrite Hprov | reflexivity]. }
  repeat split.
  - intros H. rewrite G. apply Z.leb_gt in H. now rewrite H.
  - intros H. rewrite G. apply Z.leb_le in H. now rewrite H.
  - rewrite G.
    replace ((issued + 7 * 24 * 60 * 60 * 1000) / 1000)%Z with exp.
    + now rewrite Z.leb_refl.
    + unfold exp.
      replace (issued + 7 * 24 * 60 * 60 * 1000)%Z
        with (issued + 604800 * 1000)%Z by lia.
      now rewrite Z.div_add by lia.
  - rewrite G. rewrite Z.div_mul by lia.
    replace (exp <=? exp + 1)%Z with true; [reflexivity |].
    symmetry. apply Z.leb_le. lia.
Qed.

End ExpiryClaims.

(** ** E-mail addresses that differ in letter case or white space *)

Section EmailVariants.
Variable toLowerCase : string -> string.
Variable JWT_SECRET : string.
Variable compact : Jwt.jws -> string.
Variable isEmail : string -> bool.
Variable normalizeEmail : string -> string.
Variable bcrypt_hash : string -> string -> string.
Variable bcrypt_compare : string -> string -> bool.

Let register := Routes.register toLowerCase isEmail normalizeEmail bcrypt_hash.
Let login :=
  Routes.login toLowerCase JWT_SECRET compact isEmail normalizeEmail
               bcrypt_compare.


End EmailVariants.

(** ** Concrete requests *)

(** C2.  [phone-login] with an assertion that the provider does not
    recognise (here the provider has no usable credentials, so it
    recognises none) and a phone number of the caller's choice: the
    answer is [200] with a session token for a newly created identity
    under that number.  The assertion is neither verified nor compared
    with the number, and no error is reported. *)
Theorem phone_login_accepts_unverified_assertion :
  Sample.verifyIdToken "forged" = inl "Firebase app is not initialised"
  /\ Sample.phone_login (Some "forged") (Some "+15550100") 3000 empty
     = ({| status := 200;
           body := VObj
             [("token",
               VStr (Jwt.sign Sample.compact
                       [("userId", VId 0);
                        ("phoneNumber", VStr "+15550100");
                        ("authProvider", VStr "phone")]
                       Sample.JWT_SECRET 604800 3000));
              ("user", VObj [("id", VId 0);
                             ("phoneNumber", VStr "+15550100");
                             ("authProvider", VStr "phone")])] |},
        {| users := [{| _id := 0;
                        email := None;
                        phoneNumber := Some "+15550100";
                        passwordHash := None;
                        authProvider := phone_provider;
                        createdAt := 3000;
                        lastLogin := 3000;
                        updatedAt := 3000 |}];
           next_id := 1 |}).
Proof. split; reflexivity. Qed.

(** A first phone login under a number wrapped in no-break spaces
    creates the identity under the trimmed number; a second one, at
    5 s, finds that identity and only sets its [lastLogin]. *)
Lemma phone_login_create_or_update_witness :
  let wrapped := Some (Sample.nbsp ++ "+15550100" ++ Sample.nbsp) in
  (status (fst (Sample.phone_login (Some "assertion") wrapped 3000 empty))
   = 200
   /\ map (fun u => (_id u, phoneNumber u, lastLogin u))
          (users (snd (Sample.phone_login (Some "assertion") wrapped
                                          3000 empty)))
      = [(0, Some "+15550100", 3000%Z)])
  /\ (status (fst (Sample.phone_login (Some "assertion") wrapped 5000
                                      Sample.db_phone_only)) = 200
      /\ map (fun u => (_id u, phoneNumber u, lastLogin u))
             (users (snd (Sample.phone_login (Some "assertion") wrapped
                                             5000 Sample.db_phone_only)))
         = [(0, Some "+15550100", 5000%Z)]).
Proof.
  cbv zeta. split.
  - destruct (phone_login_create_or_update
                Sample.toLowerCase Sample.JWT_SECRET Sample.compact
                (Some "assertion")
                (Some (Sample.nbsp ++ "+15550100" ++ Sample.nbsp))
                3000 empty eq_refl eq_refl) as [H _].
    unfold Sample.phone_login. rewrite H. split; reflexivity.
  - destruct (phone_login_create_or_update
                Sample.toLowerCase Sample.JWT_SECRET Sample.compact
                (Some "assertion")
                (Some (Sample.nbsp ++ "+15550100" ++ Sample.nbsp))
                5000 Sample.db_phone_only eq_refl eq_refl) as [H _].
    unfold Sample.phone_login. rewrite H. split; reflexivity.
Defined.

(** C4 (counterexample).  Alice is registered under the password
    [hunter22].  A login under her address with an empty password, which
    is not her password, is answered [400] and not [401]; a login under
    a malformed address, which is not registered, is answered [400] and
    not [404]. *)
Lemma login_invalid_body_is_400 :
  (exists u h,
      findOne_email Sample.toLowerCase
                    (Sample.normalizeEmail "Alice@Example.com")
                    Sample.db_registered = Some u
      /\ passwordHash u = Some h
      /\ Sample.bcrypt_compare "" h = false
      /\ Sample.login Sample.alice (Some "") 2000 Sample.db_registered
         = (send_error 400 "Invalid email or password format",
            Sample.db_registered))
  /\ findOne_email Sample.toLowerCase
                   (Sample.normalizeEmail "nobody") Sample.db_registered
     = None
  /\ Sample.login (Some "nobody") (Some "hunter22") 2000 Sample.db_registered
     = (send_error 400 "Invalid email or password format",
        Sample.db_registered).
Proof.
  split; [|split; reflexivity].
  eexists. eexists. repeat split; reflexivity.
Qed.

(** Bob is not registered; Alice is, under another password; and a
    login without a password is answered by validation. *)
Lemma login_failures_witness :
  Sample.login (Some "bob@example.com") (Some "hunter22") 2000
               Sample.db_registered
  = (send_error 404 "User not registered. Please register first.",
     Sample.db_registered)
  /\ Sample.login Sample.alice (Some "hunter23") 2000 Sample.db_registered
     = (send_error 401 "Incorrect password.", Sample.db_registered)
  /\ Sample.login Sample.alice None 2000 Sample.db_registered
     = (send_error 400 "Invalid email or password format",
        Sample.db_registered).
Proof.
  destruct (login_failures Sample.toLowerCase Sample.JWT_SECRET
              Sample.compact Sample.isEmail Sample.normalizeEmail
              Sample.bcrypt_compare
              (Some "bob@example.com") (Some "hunter22") 2000
              Sample.db_registered) as [_ Hbob].
  destruct (login_failures Sample.toLowerCase Sample.JWT_SECRET
              Sample.compact Sample.isEmail Sample.normalizeEmail
              Sample.bcrypt_compare
              Sample.alice (Some "hunter23") 2000
              Sample.db_registered) as [_ Halice].
  destruct (login_failures Sample.toLowerCase Sample.JWT_SECRET
              Sample.compact Sample.isEmail Sample.normalizeEmail
              Sample.bcrypt_compare
              Sample.alice None 2000
              Sample.db_registered) as [Hnone _].
  split; [|split].
  - apply Hbob; [reflexivity | discriminate | reflexivity].
  - eapply Halice; [reflexivity | discriminate | reflexivity | reflexivity
                    | reflexivity].
  - apply Hnone. right. reflexivity.
Defined.

(** Alice registers, then tries to register again.  A password of
    three characters is refused, though it takes nine bytes. *)
Lemma register_once_witness :
  status (fst (Sample.register Sample.alice Sample.alice_password
                               Sample.salt1 1000 empty)) = 201
  /\ Sample.register Sample.alice (Some "another-password") Sample.salt1 5000
                     Sample.db_registered
     = (send_error 400 "User already registered. Please login.",
        Sample.db_registered)
  /\ String.length Sample.three_characters = 9
  /\ Sample.register Sample.bob (Some Sample.three_characters) Sample.salt1
                     5000 Sample.db_registered
     = (send_error 400 "Invalid email or password format",
        Sample.db_registered).
Proof.
  destruct (register_once Sample.toLowerCase Sample.isEmail
              Sample.normalizeEmail
              Sample.bcrypt_hash Sample.alice Sample.alice_password
              Sample.salt1 1000 empty) as [_ H].
  destruct H as [H1 H2]; [reflexivity | vm_compute; lia | reflexivity |].
  destruct (register_once Sample.toLowerCase Sample.isEmail
              Sample.normalizeEmail
              Sample.bcrypt_hash Sample.bob (Some Sample.three_characters)
              Sample.salt1 5000 Sample.db_registered) as [H3 _].
  split; [|split; [|split]].
  - unfold Sample.register. now rewrite H1.
  - apply (H2 (Some "another-password") Sample.salt1 5000%Z).
    vm_compute. lia.
  - reflexivity.
  - apply H3. right. vm_compute. lia.
Defined.

(** The collection after Alice's registration is one the router
    reaches. *)
Lemma sample_reachable : Sample.reachable Sample.db_registered.
Proof.
  exact (reach_step Sample.toLowerCase Sample.JWT_SECRET Sample.compact
           Sample.isEmail Sample.normalizeEmail Sample.bcrypt_hash
           Sample.bcrypt_compare empty
           (Register Sample.alice Sample.alice_password Sample.salt1) 1000
           (reach_empty _ _ _ _ _ _ _)).
Defined.

(** Alice's login at 2 s. *)
Lemma login_token_payload_witness :
  fst (Sample.login Sample.alice Sample.alice_password 2000
                    Sample.db_registered)
  = {| status := 200;
       body := VObj
         [("token", VStr (Sample.compact Sample.alice_jws));
          ("user", VObj [("id", VId 0);
                         ("email", VStr "alice@example.com");
                         ("authProvider", VStr "email")])] |}.
Proof.
  unfold Sample.login.
  destruct (login_token_payload Sample.toLowerCase Sample.JWT_SECRET
              Sample.compact Sample.isEmail Sample.normalizeEmail Sample.bcrypt_hash
              Sample.bcrypt_compare Sample.alice Sample.alice_password 2000
              Sample.db_registered
              {| _id := 0;
                 email := Some "alice@example.com";
                 phoneNumber := None;
                 passwordHash := Some "$2a$10$abcdefghijklmnopqrstuvhunter22";
                 authProvider := email_provider;
                 createdAt := 1000;
                 lastLogin := 1000;
                 updatedAt := 1000 |}
              "$2a$10$abcdefghijklmnopqrstuvhunter22"
              sample_reachable) as [H _];
    [reflexivity | discriminate
     | reflexivity | reflexivity | reflexivity |].
  now rewrite H.
Defined.

(** The token Alice got at 2 s expires at second 604802.  Presented in
    the last millisecond before that second, it is accepted. *)
Lemma session_token_expiry_witness :
  fst (Sample.verifyToken (Some ("Bearer " ++ Sample.alice_token)) 604801999)
  = Middleware.Next (VObj (Jwt.payload Sample.alice_jws)).
Proof.
  destruct (session_token_expiry Sample.JWT_SECRET Sample.compact
              Sample.parse Sample.verifyIdToken Sample.alice_claims
              2000 604801999 "Firebase app is not initialised"
              eq_refl eq_refl eq_refl) as [H _].
  apply H. reflexivity.
Defined.

(** C7 (counterexample).  The token issued by the login at 2 s is
    presented exactly seven days after issuance, at its expiry boundary:
    both verifiers are tried and the gate answers [401]. *)
Lemma session_token_rejected_at_boundary :
  fst (Sample.login Sample.alice Sample.alice_password 2000
                    Sample.db_registered)
  = {| status := 200;
       body := VObj
         [("token", VStr Sample.alice_token);
          ("user", VObj [("id", VId 0);
                         ("email", VStr "alice@example.com");
                         ("authProvider", VStr "email")])] |}
  /\ Sample.verifyToken (Some ("Bearer " ++ Sample.alice_token))
                        (2000 + 7 * 24 * 60 * 60 * 1000)
     = (Middleware.Send (send_error 401 "Invalid token"),
        [Middleware.JwtVerify Sample.alice_token Sample.JWT_SECRET;
         Middleware.VerifyIdToken Sample.alice_token]).
Proof. split; reflexivity. Qed.

(** Alice's identity carries a password hash. *)
Lemma credentials_follow_authProvider_witness :
  Forall (fun u =>
            match authProvider u with
            | phone_provider => passwordHash u = None
            | email_provider => passwordHash u <> None
            end) (users Sample.db_registered).
Proof.
  exact (proj1 (credentials_follow_authProvider
                  Sample.toLowerCase Sample.JWT_SECRET Sample.compact
                  Sample.isEmail
                  Sample.normalizeEmail Sample.bcrypt_hash
                  Sample.bcrypt_compare Sample.db_registered
                  sample_reachable)).
Defined.



(** * Further properties *)

(** ** Contact values stay unique and normalised *)

Lemma emails_app (l m : list User) :
  emails (l ++ m) = (emails l ++ emails m)%list.
Proof. apply flat_map_app. Qed.

Lemma phoneNumbers_app (l m : list User) :
  phoneNumbers (l ++ m) = (phoneNumbers l ++ phoneNumbers m)%list.
Proof. apply flat_map_app. Qed.

Lemma emails_map (g : User -> User) (l : list User) :
  (forall v, email (g v) = email v) -> emails (map g l) = emails l.
Proof.
  intros H. induction l as [|a l IH]; simpl; [reflexivity |].
  now rewrite H, IH.
Qed.

Lemma phoneNumbers_map (g : User -> User) (l : list User) :
  (forall v, phoneNumber (g v) = phoneNumber v) ->
  phoneNumbers (map g l) = phoneNumbers l.
Proof.
  intros H. induction l as [|a l IH]; simpl; [reflexivity |].
  now rewrite H, IH.
Qed.

Lemma in_emails (x : string) (l : list User) :
  In x (emails l) <-> exists u, In u l /\ email u = Some x.
Proof.
  unfold emails. rewrite in_flat_map. split.
  - intros [u [Hu Hx]]. exists u. split; [exact Hu |].
    destruct (email u); [destruct Hx as [-> | []]; reflexivity | destruct Hx].
  - intros [u [Hu E]]. exists u. split; [exact Hu |]. rewrite E. now left.
Qed.

Lemma in_phoneNumbers (x : string) (l : list User) :
  In x (phoneNumbers l) <-> exists u, In u l /\ phoneNumber u = Some x.
Proof.
  unfold phoneNumbers. rewrite in_flat_map. split.
  - intros [u [Hu Hx]]. exists u. split; [exact Hu |].
    destruct (phoneNumber u);
      [destruct Hx as [-> | []]; reflexivity | destruct Hx].
  - intros [u [Hu E]]. exists u. split; [exact Hu |]. rewrite E. now left.
Qed.

Lemma find_none_forall {A} (f : A -> bool) (l : list A) (x : A) :
  find f l = None -> In x l -> f x = false.
Proof. intros H Hin. exact (find_none f l H x Hin). Qed.

Lemma NoDup_snoc {A} (l : list A) (x : A) :
  NoDup l -> ~ In x l -> NoDup (l ++ [x]).
Proof.
  intros Hl Hx. apply NoDup_app. repeat split.
  - exact Hl.
  - constructor; [intros [] | constructor].
  - intros y Hy [<- | []]. now apply Hx.
Qed.

Lemma findOne_phoneNumber_none (q : string) (d : db) :
  findOne_phoneNumber q d = None ->
  ~ In (set_phoneNumber q) (phoneNumbers (users d)).
Proof.
  intros H Hin. apply in_phoneNumbers in Hin as [u [Hu E]].
  pose proof (find_none_forall _ _ u H Hu) as F. simpl in F.
  rewrite E in F. simpl in F. now rewrite String.eqb_refl in F.
Qed.

Lemma contacts_unique_touch (u : User) (now : Z) (d : db) :
  consistent d -> contacts_unique d -> In u (users d) ->
  contacts_unique (save_existing (touch u now) d).
Proof.
  intros [_ Hids _] [Hm Hp] Hin.
  pose proof (save_existing_touch u now d Hids Hin) as E.
  split; rewrite E.
  - rewrite emails_map; [exact Hm |].
    intros v. now destruct (_id v =? _id u)%nat.
  - rewrite phoneNumbers_map; [exact Hp |].
    intros v. now destruct (_id v =? _id u)%nat.
Qed.

Section ContactFacts.
Variable toLowerCase : string -> string.
Variable JWT_SECRET : string.
Variable compact : Jwt.jws -> string.
Variable isEmail : string -> bool.
Variable normalizeEmail : string -> string.
Variable bcrypt_hash : string -> string -> string.
Variable bcrypt_compare : string -> string -> bool.

Let handle :=
  Routes.handle toLowerCase JWT_SECRET compact isEmail normalizeEmail
                bcrypt_hash bcrypt_compare.
Let reachable :=
  Routes.reachable toLowerCase JWT_SECRET compact isEmail normalizeEmail
                   bcrypt_hash bcrypt_compare.

Lemma findOne_email_none (q : string) (d : db) :
  findOne_email toLowerCase q d = None ->
  ~ In (set_email toLowerCase q) (emails (users d)).
Proof.
  intros H Hin. apply in_emails in Hin as [u [Hu E]].
  pose proof (find_none_forall _ _ u H Hu) as F. simpl in F.
  rewrite E in F. simpl in F. now rewrite String.eqb_refl in F.
Qed.

Lemma contacts_unique_register (q : string) (h : option string) (now : Z)
      (d : db) :
  contacts_unique d -> findOne_email toLowerCase q d = None ->
  contacts_unique
    {| users := users d
                ++ [new_User toLowerCase (Some q) None h email_provider
                             now d];
       next_id := S (next_id d) |}.
Proof.
  intros [Hm Hp] Hnone. split; simpl.
  - rewrite emails_app. simpl. apply NoDup_snoc; [exact Hm |].
    now apply findOne_email_none.
  - rewrite phoneNumbers_app. simpl. now rewrite app_nil_r.
Qed.

Lemma contacts_unique_phone (q : string) (now : Z) (d : db) :
  contacts_unique d -> findOne_phoneNumber q d = None ->
  contacts_unique
    {| users := users d
                ++ [new_User toLowerCase None (Some q) None phone_provider
                             now d];
       next_id := S (next_id d) |}.
Proof.
  intros [Hm Hp] Hnone. split; simpl.
  - rewrite emails_app. simpl. now rewrite app_nil_r.
  - rewrite phoneNumbers_app. simpl. apply NoDup_snoc; [exact Hp |].
    now apply findOne_phoneNumber_none.
Qed.

(** Every insert of the router follows a lookup that found nothing, so
    no request stores a contact value twice. *)
Lemma handle_contacts_unique (r : Routes.request) (now : Z) (d : db) :
  consistent d -> contacts_unique d ->
  contacts_unique (snd (handle r now d)).
Proof.
  intros Hc Hk. destruct r as [e p salt | e p | t p]; simpl.
  - unfold Routes.register.
    destruct (negb _); [exact Hk |].
    destruct (findOne_email toLowerCase _ d) eqn:Hf; [exact Hk |].
    rewrite (save_new_email _ _ _ now d Hf). simpl.
    now apply contacts_unique_register.
  - unfold Routes.login.
    destruct (negb _); [exact Hk |].
    destruct (findOne_email toLowerCase _ d) as [u|] eqn:Hf; [|exact Hk].
    destruct (passwordHash u); [|exact Hk].
    destruct (negb _); [exact Hk |]. simpl.
    apply contacts_unique_touch; [exact Hc | exact Hk |].
    now apply findOne_email_in in Hf.
  - unfold Routes.phone_login.
    destruct (truthy t); [|exact Hk].
    destruct (truthy p) eqn:Hp; [|exact Hk]. simpl.
    apply truthy_some in Hp as [s [-> _]]. simpl.
    destruct (findOne_phoneNumber s d) as [u|] eqn:Hf.
    + simpl. apply contacts_unique_touch; [exact Hc | exact Hk |].
      now apply findOne_phoneNumber_in in Hf.
    + rewrite (save_new_phone _ _ now d Hf). simpl.
      now apply contacts_unique_phone.
Qed.

Lemma reachable_contacts_unique (d : db) : reachable d -> contacts_unique d.
Proof.
  induction 1 as [|d r now Hr IH].
  - split; simpl; constructor.
  - apply handle_contacts_unique; [|exact IH].
    exact (reachable_consistent _ _ _ _ _ _ _ d Hr).
Qed.

(** What a request stores went through the setter. *)
Lemma handle_contact_ok (r : Routes.request) (now : Z) (d : db) :
  (forall s, set_email toLowerCase (set_email toLowerCase s)
             = set_email toLowerCase s) ->
  consistent d ->
  Forall (contact_ok toLowerCase) (users d) ->
  Forall (contact_ok toLowerCase) (users (snd (handle r now d))).
Proof.
  intros Hidem [_ Hids _] Hk.
  assert (Htouch : forall u, In u (users d) ->
            Forall (contact_ok toLowerCase)
                   (users (save_existing (touch u now) d))).
  { intros u Hin. rewrite (save_existing_touch u now d Hids Hin).
    apply Forall_map. eapply Forall_impl; [|exact Hk].
    intros v Hv. now destruct (_id v =? _id u)%nat. }
  destruct r as [e p salt | e p | t p]; simpl.
  - unfold Routes.register.
    destruct (negb _); [exact Hk |].
    destruct (findOne_email toLowerCase _ d) eqn:Hf; [exact Hk |].
    rewrite (save_new_email _ _ _ now d Hf). simpl.
    apply Forall_app. split; [exact Hk |]. constructor; [|constructor].
    split; [|reflexivity]. eexists. split; [reflexivity | apply Hidem].
  - unfold Routes.login.
    destruct (negb _); [exact Hk |].
    destruct (findOne_email toLowerCase _ d) as [u|] eqn:Hf; [|exact Hk].
    destruct (passwordHash u); [|exact Hk].
    destruct (negb _); [exact Hk |]. simpl.
    apply Htouch. now apply findOne_email_in in Hf.
  - unfold Routes.phone_login.
    destruct (truthy t); [|exact Hk].
    destruct (truthy p) eqn:Hp; [|exact Hk]. simpl.
    apply truthy_some in Hp as [s [-> _]]. simpl.
    destruct (findOne_phoneNumber s d) as [u|] eqn:Hf.
    + simpl. apply Htouch. now apply findOne_phoneNumber_in in Hf.
    + rewrite (save_new_phone _ _ now d Hf). simpl.
      apply Forall_app. split; [exact Hk |]. constructor; [|constructor].
      split; [reflexivity |]. eexists.
      split; [reflexivity | apply set_phoneNumber_idem].
Qed.

Lemma reachable_contacts_ok (d : db) :
  (forall s, set_email toLowerCase (set_email toLowerCase s)
             = set_email toLowerCase s) ->
  reachable d -> contacts_ok toLowerCase d.
Proof.
  intros Hidem Hr.
  destruct (reachable_contacts_unique d Hr) as [Hm Hp].
  split; [|exact Hm | exact Hp]. clear Hm Hp.
  induction Hr as [|d r now Hr IH]; [constructor |].
  apply (handle_contact_ok r now d Hidem); [|exact IH].
  exact (reachable_consistent _ _ _ _ _ _ _ d Hr).
Qed.

End ContactFacts.

(** Uniqueness of the values a projection gives, read on the elements. *)
Lemma present_unique_in (f : User -> option string) (l : list User)
      (u v : User) (s : string) :
  NoDup (flat_map (fun w => match f w with Some e => [e] | None => [] end) l) ->
  In u l -> In v l -> f u = Some s -> f v = Some s -> u = v.
Proof.
  induction l as [|a l IH]; simpl; [contradiction |].
  intros Hnd Hu Hv Eu Ev.
  assert (Hin : forall w, In w l -> f w = Some s ->
                In s (flat_map (fun w => match f w with
                                         | Some e => [e] | None => [] end) l)).
  { intros w Hw Ew. apply in_flat_map. exists w. split; [exact Hw |].
    rewrite Ew. now left. }
  destruct Hu as [-> | Hu], Hv as [-> | Hv]; auto.
  - rewrite Eu in Hnd. simpl in Hnd. inversion Hnd as [|? ? Hnot _]; subst.
    elim Hnot. now apply (Hin v).
  - rewrite Ev in Hnd. simpl in Hnd. inversion Hnd as [|? ? Hnot _]; subst.
    elim Hnot. now apply (Hin u).
  - apply IH; auto. now apply NoDup_app_remove_l in Hnd.
Qed.

(** The same, read on the positions. *)
Lemma present_unique_nth (f : User -> option string) (l : list User)
      (i j : nat) (u v : User) (s : string) :
  NoDup (flat_map (fun w => match f w with Some e => [e] | None => [] end) l) ->
  nth_error l i = Some u -> nth_error l j = Some v ->
  f u = Some s -> f v = Some s -> i = j.
Proof.
  revert i j. induction l as [|a l IH]; intros i j Hnd Hi Hj Eu Ev.
  - now destruct i.
  - assert (Hin : forall k w, nth_error l k = Some w -> f w = Some s ->
                  In s (flat_map (fun w => match f w with
                                           | Some e => [e] | None => [] end)
                                 l)).
    { intros k w Hk Ew. apply in_flat_map. exists w.
      split; [now apply nth_error_In in Hk |]. rewrite Ew. now left. }
    simpl in Hnd. destruct i as [|i], j as [|j]; simpl in Hi, Hj.
    + reflexivity.
    + injection Hi as ->. rewrite Eu in Hnd. simpl in Hnd.
      inversion Hnd as [|? ? Hnot _]; subst. elim Hnot. now apply (Hin j v).
    + injection Hj as ->. rewrite Ev in Hnd. simpl in Hnd.
      inversion Hnd as [|? ? Hnot _]; subst. elim Hnot. now apply (Hin i u).
    + f_equal. apply IH; auto. now apply NoDup_app_remove_l in Hnd.
Qed.

(** ** The collections the auth router reaches *)

Section ReachableFacts.
Variable toLowerCase : string -> string.
Variable JWT_SECRET : string.
Variable compact : Jwt.jws -> string.
Variable isEmail : string -> bool.
Variable normalizeEmail : string -> string.
Variable bcrypt_hash : string -> string -> string.
Variable bcrypt_compare : string -> string -> bool.

Let handle :=
  Routes.handle toLowerCase JWT_SECRET compact isEmail normalizeEmail
                bcrypt_hash bcrypt_compare.
Let reachable :=
  Routes.reachable toLowerCase JWT_SECRET compact isEmail normalizeEmail
                   bcrypt_hash bcrypt_compare.

(** X1.  In a collection the router has built, an e-mail address is
    stored for at most one identity, and so is a phone number: the
    identities at two different positions do not have the same address,
    and do not have the same number. *)
Theorem contacts_are_unique (d : db) (i j : nat) (u v : User) :
  reachable d ->
  nth_error (users d) i = Some u ->
  nth_error (users d) j = Some v ->
  i <> j ->
  (forall s, email u = Some s -> email v <> Some s)
  /\ (forall s, phoneNumber u = Some s -> phoneNumber v <> Some s).
Proof.
  intros Hr Hi Hj Hne.
  destruct (reachable_contacts_unique _ _ _ _ _ _ _ d Hr) as [Hm Hp].
  split; intros s Eu Ev; apply Hne.
  - exact (present_unique_nth email (users d) i j u v s Hm Hi Hj Eu Ev).
  - exact (present_unique_nth phoneNumber (users d) i j u v s Hp Hi Hj Eu Ev).
Qed.

(** X2.  Let [toLowerCase] be idempotent and commute with [trim], as
    putting letters in lower case does.  In a collection the router has
    built, every identity has exactly the contact value of its provider:
    an e-mail identity has an address and no phone number, a phone
    identity a number and no address.  The stored address is in lower
    case and has no white space around it; the stored number has no
    white space around it. *)
Theorem stored_contacts_normalised (d : db) :
  (forall s, toLowerCase (toLowerCase s) = toLowerCase s) ->
  (forall s, trim (toLowerCase s) = toLowerCase (trim s)) ->
  reachable d ->
  Forall (fun u =>
            match authProvider u with
            | email_provider =>
                phoneNumber u = None
                /\ exists s, email u = Some s
                             /\ toLowerCase s = s /\ trim s = s
            | phone_provider =>
                email u = None
                /\ exists s, phoneNumber u = Some s /\ trim s = s
            end) (users d).
Proof.
  intros Hidem Hcomm Hr.
  assert (Hset : forall s, set_email toLowerCase (set_email toLowerCase s)
                           = set_email toLowerCase s).
  { intros s. unfold set_email. now rewrite Hcomm, Hidem, trim_idem. }
  destruct (reachable_contacts_ok _ _ _ _ _ _ _ d Hset Hr) as [He _ _].
  eapply Forall_impl; [|exact He].
  intros u. unfold contact_ok. destruct (authProvider u).
  - intros [[s [E F]] P]. split; [exact P |]. exists s.
    split; [exact E |]. unfold set_email in F. split.
    + rewrite <- F at 1. now rewrite Hidem.
    + rewrite <- F at 1. now rewrite Hcomm, trim_idem.
  - intros [E [s [P F]]]. split; [exact E |]. now exists s.
Qed.

(** X3.  Let the setter of [email] be idempotent.  In a collection the
    router has built, the lookup by the address stored for an identity
    returns that identity, and so does the lookup by its stored phone
    number. *)
Theorem stored_identity_is_found (d : db) (u : User) :
  (forall s, set_email toLowerCase (set_email toLowerCase s)
             = set_email toLowerCase s) ->
  reachable d ->
  In u (users d) ->
  (forall s, email u = Some s -> findOne_email toLowerCase s d = Some u)
  /\ (forall s, phoneNumber u = Some s -> findOne_phoneNumber s d = Some u).
Proof.
  intros Hset Hr Hin.
  destruct (reachable_contacts_ok _ _ _ _ _ _ _ d Hset Hr) as [He Hm Hp].
  rewrite Forall_forall in He. pose proof (He u Hin) as Hu.
  unfold contact_ok in Hu. split; intros s E.
  - assert (F : set_email toLowerCase s = s).
    { destruct (authProvider u).
      - destruct Hu as [[s' [E' F']] _]. congruence.
      - destruct Hu as [E' _]. congruence. }
    unfold findOne_email. rewrite F.
    destruct (find _ (users d)) as [w|] eqn:Hf.
    + apply find_some in Hf as [Hw Ew]. apply option_eqb_eq in Ew.
      f_equal. exact (present_unique_in email (users d) w u s Hm Hw Hin Ew E).
    + pose proof (find_none_forall _ _ u Hf Hin) as C. simpl in C.
      rewrite E in C. simpl in C. now rewrite String.eqb_refl in C.
  - assert (F : set_phoneNumber s = s).
    { destruct (authProvider u).
      - destruct Hu as [_ E']. congruence.
      - destruct Hu as [_ [s' [E' F']]]. congruence. }
    unfold findOne_phoneNumber. rewrite F.
    destruct (find _ (users d)) as [w|] eqn:Hf.
    + apply find_some in Hf as [Hw Ew]. apply option_eqb_eq in Ew.
      f_equal.
      exact (present_unique_in phoneNumber (users d) w u s Hp Hw Hin Ew E).
    + pose proof (find_none_forall _ _ u Hf Hin) as C. simpl in C.
      rewrite E in C. simpl in C. now rewrite String.eqb_refl in C.
Qed.

End ReachableFacts.

Section RouterOutcomes.
Variable toLowerCase : string -> string.
Variable JWT_SECRET : string.
Variable compact : Jwt.jws -> string.
Variable isEmail : string -> bool.
Variable normalizeEmail : string -> string.
Variable bcrypt_hash : string -> string -> string.
Variable bcrypt_compare : string -> string -> bool.

Let phone_login := Routes.phone_login toLowerCase JWT_SECRET compact.
Let handle :=
  Routes.handle toLowerCase JWT_SECRET compact isEmail normalizeEmail
                bcrypt_hash bcrypt_compare.
Let reachable :=
  Routes.reachable toLowerCase JWT_SECRET compact isEmail normalizeEmail
                   bcrypt_hash bcrypt_compare.

(** What a request does to the list of identities: nothing, one
    identity more, or a new [lastLogin] for one stored identity. *)
Lemma handle_shape (r : Routes.request) (now : Z) (d : db) :
  consistent d ->
  users (snd (handle r now d)) = users d
  \/ (exists x, users (snd (handle r now d)) = (users d ++ [x])%list)
  \/ (exists u, In u (users d)
                /\ users (snd (handle r now d))
                   = map (fun v => if (_id v =? _id u)%nat
                                   then touch v now else v) (users d)).
Proof.
  intros [_ Hids _]. destruct r as [e p salt | e p | t p]; simpl.
  - unfold Routes.register.
    destruct (negb _); [now left |].
    destruct (findOne_email toLowerCase _ d) eqn:Hf; [now left |].
    rewrite (save_new_email _ _ _ now d Hf). right. left. now eexists.
  - unfold Routes.login.
    destruct (negb _); [now left |].
    destruct (findOne_email toLowerCase _ d) as [u|] eqn:Hf; [|now left].
    destruct (passwordHash u); [|now left].
    destruct (negb _); [now left |]. simpl.
    apply findOne_email_in in Hf as [Hin _].
    right. right. exists u. split; [exact Hin |].
    now apply save_existing_touch.
  - unfold Routes.phone_login.
    destruct (truthy t); [|now left].
    destruct (truthy p) eqn:Hp; [|now left]. simpl.
    apply truthy_some in Hp as [s [-> _]]. simpl.
    destruct (findOne_phoneNumber s d) as [u|] eqn:Hf.
    + simpl. apply findOne_phoneNumber_in in Hf as [Hin _].
      right. right. exists u. split; [exact Hin |].
      now apply save_existing_touch.
    + rewrite (save_new_phone _ _ now d Hf). right. left. now eexists.
Qed.

(** X4.  Requests whose body fields are absent or strings, handled one
    after another: on a collection the router has built from such
    requests, none of them is answered [500]: the status is one of 200,
    201, 400, 401 and 404.  In particular the insert of [register] and
    [phone-login] never hits a unique index, and [login] always finds a
    password hash on the identity it looked up. *)
Theorem router_never_fails (r : Routes.request) (now : Z) (d : db) :
  reachable d ->
  expected_status (status (fst (handle r now d))) = true.
Proof.
  intros Hr.
  destruct (reachable_consistent _ _ _ _ _ _ _ d Hr) as [Hwf _ _].
  rewrite Forall_forall in Hwf.
  destruct r as [e p salt | e p | t p]; simpl.
  - unfold Routes.register.
    destruct (negb _); [reflexivity |].
    destruct (findOne_email toLowerCase _ d) eqn:Hf; [reflexivity |].
    now rewrite (save_new_email _ _ _ now d Hf).
  - unfold Routes.login.
    destruct (negb _); [reflexivity |].
    destruct (findOne_email toLowerCase _ d) as [u|] eqn:Hf; [|reflexivity].
    apply findOne_email_in in Hf as [Hin E].
    specialize (Hwf u Hin). unfold well_formed in Hwf.
    destruct (passwordHash u) eqn:Hh.
    + now destruct (negb _).
    + destruct (authProvider u); [now elim Hwf |].
      destruct Hwf as [_ Hnone]. congruence.
  - unfold Routes.phone_login.
    destruct (truthy t); [|reflexivity].
    destruct (truthy p) eqn:Hp; [|reflexivity]. simpl.
    apply truthy_some in Hp as [s [-> _]]. simpl.
    destruct (findOne_phoneNumber s d) as [u|] eqn:Hf; [reflexivity |].
    now rewrite (save_new_phone _ _ now d Hf).
Qed.

(** X5.  On a collection the router has built, a request rewrites at
    most one stored identity, and only its [lastLogin] and [updatedAt],
    which become the time of the request: every stored identity is
    afterwards at its place either as it was or with these two fields
    set, and two places whose identity changed are one place. *)
Theorem request_touches_one_identity (r : Routes.request) (now : Z) (d : db) :
  reachable d ->
  (forall i v, nth_error (users d) i = Some v ->
               nth_error (users (snd (handle r now d))) i = Some v
               \/ nth_error (users (snd (handle r now d))) i
                  = Some (touch v now))
  /\ (forall i j v w,
         nth_error (users d) i = Some v ->
         nth_error (users d) j = Some w ->
         nth_error (users (snd (handle r now d))) i <> Some v ->
         nth_error (users (snd (handle r now d))) j <> Some w ->
         i = j).
Proof.
  intros Hr.
  pose proof (reachable_consistent _ _ _ _ _ _ _ d Hr) as Hc.
  destruct (handle_shape r now d Hc) as [E | [[x E] | [u [Hin E]]]];
    rewrite E; clear E.
  - split; [now left | congruence].
  - assert (K : forall i v, nth_error (users d) i = Some v ->
                nth_error (users d ++ [x]) i = Some v).
    { intros i v H. rewrite nth_error_app1; [exact H |].
      apply nth_error_Some. congruence. }
    split; [intros i v H; left; now apply K |].
    intros i j v w Hi _ Ni _. elim Ni. now apply K.
  - assert (K : forall i v, nth_error (users d) i = Some v ->
                nth_error (map (fun v0 => if (_id v0 =? _id u)%nat
                                          then touch v0 now else v0)
                               (users d)) i
                = Some (if (_id v =? _id u)%nat then touch v now else v)).
    { intros i v H. now rewrite nth_error_map, H. }
    split.
    + intros i v H. rewrite (K i v H).
      destruct (_id v =? _id u)%nat; [now right | now left].
    + intros i j v w Hi Hj Ni Nj.
      rewrite (K i v Hi) in Ni. rewrite (K j w Hj) in Nj.
      destruct (Nat.eqb_spec (_id v) (_id u)) as [Ev|]; [|now elim Ni].
      destruct (Nat.eqb_spec (_id w) (_id u)) as [Ew|]; [|now elim Nj].
      destruct Hc as [_ Hids _].
      apply (proj1 (NoDup_nth_error (map _id (users d))) Hids).
      * rewrite length_map. apply nth_error_Some. congruence.
      * rewrite !nth_error_map, Hi, Hj. simpl. congruence.
Qed.

(** X6.  Two phone logins in a row with numbers that differ only in the
    white space around them, that is, with the same [trim], the number
    not being known before: both are answered for the same identity, the
    one the first login created, and the collection has grown by exactly
    one identity. *)
Theorem phone_login_twice (t t' : option string) (p p' : string)
        (now now' : Z) (d : db) :
  truthy t = true -> truthy t' = true ->
  p <> "" -> p' <> "" ->
  trim p' = trim p ->
  findOne_phoneNumber p d = None ->
  let r1 := phone_login t (Some p) now d in
  let r2 := phone_login t' (Some p') now' (snd r1) in
  Session.user_id_of (fst r1) = VId (next_id d)
  /\ Session.user_id_of (fst r2) = VId (next_id d)
  /\ List.length (users (snd r2)) = S (List.length (users d)).
Proof.
  intros Ht Ht' Hp Hp' Htrim Hnone r1 r2.
  apply String.eqb_neq in Hp, Hp'.
  assert (E1 : r1 = phone_login t (Some p) now d) by reflexivity.
  unfold phone_login, Routes.phone_login in E1.
  cbn [truthy to_string] in E1. rewrite Ht, Hp in E1. cbn [negb orb] in E1.
  rewrite Hnone, (save_new_phone _ p now d Hnone) in E1. cbn [option_map] in E1.
  set (u := new_User toLowerCase None (Some p) None phone_provider now d) in E1.
  assert (Hfind : findOne_phoneNumber p' (snd r1) = Some u).
  { rewrite E1. cbn [snd].
    rewrite <- (findOne_phoneNumber_inserted p u d (S (next_id d)) Hnone
                                             eq_refl).
    unfold findOne_phoneNumber, set_phoneNumber. now rewrite Htrim. }
  assert (E2 : r2 = phone_login t' (Some p') now' (snd r1)) by reflexivity.
  unfold phone_login, Routes.phone_login in E2.
  cbn [truthy to_string] in E2. rewrite Ht', Hp' in E2. cbn [negb orb] in E2.
  rewrite Hfind in E2.
  rewrite E2. split; [now rewrite E1 |]. split; [reflexivity |].
  cbn [snd]. unfold save_existing. cbn [users].
  rewrite length_map, E1. cbn [snd users].
  rewrite length_app. simpl. lia.
Qed.

End RouterOutcomes.

(** ** The gate and the tokens of the router *)

Section GateSessions.
Variable toLowerCase : string -> string.
Variable JWT_SECRET : string.
Variable compact : Jwt.jws -> string.
Variable parse : string -> option Jwt.jws.
Variable verifyIdToken : string -> string + Middleware.DecodedIdToken.
Variable isEmail : string -> bool.
Variable normalizeEmail : string -> string.
Variable bcrypt_compare : string -> string -> bool.

Import Middleware.

Let gate := verifyToken JWT_SECRET parse verifyIdToken.
Let login :=
  Routes.login toLowerCase JWT_SECRET compact isEmail normalizeEmail
               bcrypt_compare.
Let phone_login := Routes.phone_login toLowerCase JWT_SECRET compact.

(** X7.  The gate looks at the credential only under a header that
    starts with [Bearer ] (in this letter case, with the space): then the
    session check is its first call, on the header without its first
    seven characters.  Under any other header, a missing or empty one
    included, it answers [401 No token provided] and calls neither
    verifier. *)
Theorem verifyToken_header (authorization : option string) (now : Z) :
  if match authorization with
     | Some h => startsWith h "Bearer "
     | None => false
     end
  then exists rest,
      snd (gate authorization now)
      = JwtVerify (substring_from 7 (to_string authorization)) JWT_SECRET
        :: rest
  else gate authorization now
       = (Send (send_error 401 "No token provided"), []).
Proof.
  unfold gate, verifyToken.
  destruct authorization as [h|]; [|reflexivity].
  destruct (startsWith h "Bearer ") eqn:Hb.
  - assert (Ht : truthy (Some h) = true).
    { destruct h; [discriminate Hb | reflexivity]. }
    rewrite Ht. simpl.
    destruct (Jwt.verify _ _ _ _); [|now eexists].
    destruct (verifyIdToken _); now eexists.
  - now rewrite orb_true_r.
Qed.

(** The gate on a token that passes the session check. *)
Lemma verifyToken_session (token : string) (now : Z) (claims : object) :
  Jwt.verify parse token JWT_SECRET now = inr claims ->
  gate (Some ("Bearer " ++ token)) now
  = (Next (VObj claims), [JwtVerify token JWT_SECRET]).
Proof.
  intros H. destruct (bearer_token token) as [Hp Hs].
  unfold gate, verifyToken.
  replace (truthy (Some ("Bearer " ++ token))) with true by reflexivity.
  rewrite Hp, Hs. simpl. now rewrite H.
Qed.

(** The gate on a token the router signed, presented before it
    expires. *)
Lemma gate_accepts_signed (claims : object) (issued later : Z) :
  existsb (String.eqb "exp") (map fst claims) = false ->
  let j := Session.signed claims JWT_SECRET issued in
  parse (compact j) = Some j ->
  (later / 1000 < issued / 1000 + 604800)%Z ->
  gate (Some ("Bearer " ++ compact j)) later
  = (Next (VObj (Jwt.payload j)), [JwtVerify (compact j) JWT_SECRET]).
Proof.
  intros Hfresh j Hparse Hlt. apply verifyToken_session.
  rewrite (verify_signed JWT_SECRET parse (compact j) later
             (issued / 1000 + 604800) j Hparse eq_refl).
  - apply Z.leb_gt in Hlt. now rewrite Hlt.
  - unfold j, Session.signed. cbn [Jwt.payload].
    rewrite (get_app "exp" claims _ Hfresh). reflexivity.
Qed.

(** X8.  The token of a successful login, presented as a [Bearer]
    credential before the second [iat + 604800], is accepted by the gate
    on the session check alone, the provider not being called, and the
    principal it sets carries the [_id] of the identity that logged in as
    [userId]. *)
Theorem login_token_opens_gate (e p : option string) (now later : Z)
        (d : db) (u : User) (h : string) :
  isEmail (to_string e) = true ->
  to_string p <> "" ->
  findOne_email toLowerCase (normalizeEmail (to_string e)) d = Some u ->
  passwordHash u = Some h ->
  bcrypt_compare (to_string p) h = true ->
  let j := Session.signed (Session.email_claims u) JWT_SECRET now in
  parse (compact j) = Some j ->
  (later / 1000 < now / 1000 + 604800)%Z ->
  Session.token_of (fst (login e p now d)) = VStr (compact j)
  /\ gate (Some ("Bearer " ++ compact j)) later
     = (Next (VObj (Jwt.payload j)), [JwtVerify (compact j) JWT_SECRET])
  /\ Files.prop "userId" (VObj (Jwt.payload j)) = VId (_id u).
Proof.
  intros He Hp Hf Hh Hc j Hparse Hlt. apply String.eqb_neq in Hp.
  split; [|split].
  - unfold login, Routes.login, notEmpty.
    rewrite He, Hp, Hf, Hh, Hc. reflexivity.
  - now apply gate_accepts_signed.
  - reflexivity.
Qed.

(** X9.  The same for a phone login: its token is for the identity
    stored under the trimmed number, the one found or the one just
    created, and the gate accepts it before expiry with that identity's
    [_id] as [userId]. *)
Theorem phone_token_opens_gate (t p : option string) (now later : Z)
        (d : db) :
  truthy t = true ->
  truthy p = true ->
  let uid := match findOne_phoneNumber (to_string p) d with
             | Some u0 => _id u0
             | None => next_id d
             end in
  let j := Session.signed
             (Session.phone_claims uid (trim (to_string p)))
             JWT_SECRET now in
  parse (compact j) = Some j ->
  (later / 1000 < now / 1000 + 604800)%Z ->
  Session.token_of (fst (phone_login t p now d)) = VStr (compact j)
  /\ gate (Some ("Bearer " ++ compact j)) later
     = (Next (VObj (Jwt.payload j)), [JwtVerify (compact j) JWT_SECRET])
  /\ Files.prop "userId" (VObj (Jwt.payload j)) = VId uid
  /\ exists u, In u (users (snd (phone_login t p now d)))
               /\ _id u = uid
               /\ phoneNumber u = Some (trim (to_string p)).
Proof.
  intros Ht Hp uid j Hparse Hlt.
  apply truthy_some in Hp as Hs. destruct Hs as [s [-> _]].
  split; [|split; [|split]].
  - unfold phone_login, Routes.phone_login. rewrite Ht, Hp.
    cbn [negb orb to_string]. unfold j, uid. cbn [to_string].
    destruct (findOne_phoneNumber s d) as [u0|] eqn:Hf.
    + apply findOne_phoneNumber_in in Hf as [_ E].
      unfold Session.token_of. cbn. rewrite E. reflexivity.
    + rewrite (save_new_phone _ s now d Hf). reflexivity.
  - now apply gate_accepts_signed.
  - reflexivity.
  - unfold phone_login, Routes.phone_login. rewrite Ht, Hp.
    cbn [negb orb to_string]. unfold uid. cbn [to_string].
    destruct (findOne_phoneNumber s d) as [u0|] eqn:Hf.
    + apply findOne_phoneNumber_in in Hf as [Hin E].
      exists (touch u0 now). cbn [snd]. split; [|split].
      * unfold save_existing. cbn [users]. apply in_map_iff.
        exists u0. split; [|exact Hin]. cbn. now rewrite Nat.eqb_refl.
      * reflexivity.
      * exact E.
    + rewrite (save_new_phone _ s now d Hf). cbn [option_map snd users].
      eexists. split; [apply in_or_app; right; now left |].
      split; reflexivity.
Qed.

End GateSessions.

(** ** The file router *)

Fixpoint value_eqb_true (a : value) : forall b, Files.value_eqb a b = true -> a = b.
Proof.
  destruct a as [| x | x | x | x | f]; intros [| y | y | y | y | g] H;
    simpl in H; try discriminate.
  - reflexivity.
  - f_equal. now apply Bool.eqb_prop.
  - f_equal. now apply Z.eqb_eq.
  - f_equal. now apply String.eqb_eq.
  - f_equal. now apply Nat.eqb_eq.
  - f_equal. revert g H.
    induction f as [|[k v] l IHl]; intros [|[k' v'] m] H;
      try discriminate; [reflexivity |].
    apply andb_true_iff in H as [H Hl]. apply andb_true_iff in H as [Hk Hv].
    apply String.eqb_eq in Hk. apply value_eqb_true in Hv.
    subst. f_equal. now apply IHl.
Qed.

Fixpoint value_eqb_refl (a : value) : Files.value_eqb a a = true.
Proof.
  destruct a as [| x | x | x | x | f]; simpl.
  - reflexivity.
  - apply Bool.eqb_reflx.
  - apply Z.eqb_refl.
  - apply String.eqb_refl.
  - apply Nat.eqb_refl.
  - induction f as [|[k v] l IHl]; [reflexivity |].
    now rewrite String.eqb_refl, value_eqb_refl, IHl.
Qed.

Lemma value_eqb_eq (a b : value) : Files.value_eqb a b = true <-> a = b.
Proof.
  split; [apply value_eqb_true | intros ->; apply value_eqb_refl].
Qed.

Lemma deleteOne_unique (id : nat) (l : list Files.FileDoc) :
  NoDup (map Files.file_id l) ->
  Files.deleteOne id l
  = filter (fun d => negb (Files.file_id d =? id)%nat) l.
Proof.
  induction l as [|a l IH]; simpl; [reflexivity |].
  intros Hnd. inversion Hnd as [|? ? Hnot Hnd']; subst.
  destruct (Nat.eqb_spec (Files.file_id a) id) as [E|]; simpl.
  - symmetry. apply forallb_filter_id. apply forallb_forall.
    intros d Hd. apply negb_true_iff, Nat.eqb_neq. intros E'.
    apply Hnot. rewrite E, <- E'. now apply in_map.
  - f_equal. now apply IH.
Qed.

Lemma find_owned (id : nat) (uid : value) (l : list Files.FileDoc)
      (doc : Files.FileDoc) :
  NoDup (map Files.file_id l) ->
  In doc l -> Files.file_id doc = id -> Files.userId doc = uid ->
  find (fun d => (Files.file_id d =? id)%nat
                 && Files.value_eqb (Files.userId d) uid) l
  = Some doc.
Proof.
  intros Hnd Hin Hid Hu.
  destruct (find _ l) as [w|] eqn:Hf.
  - apply find_some in Hf as [Hw Ew]. apply andb_true_iff in Ew as [Ew _].
    apply Nat.eqb_eq in Ew. f_equal.
    apply (NoDup_map_eq Files.file_id l w doc Hnd Hw Hin). congruence.
  - pose proof (find_none _ _ Hf doc Hin) as C. simpl in C.
    rewrite Hid, Hu, Nat.eqb_refl, value_eqb_refl in C. discriminate.
Qed.

Lemma filter_absorbs {A} (f g : A -> bool) (l : list A) :
  (forall x, In x l -> f x = true -> g x = true) ->
  filter f (filter g l) = filter f l.
Proof.
  induction l as [|a l IH]; intros H; simpl; [reflexivity |].
  destruct (g a) eqn:Eg; simpl.
  - destruct (f a); [f_equal |]; apply IH; intros x Hx; apply H; now right.
  - destruct (f a) eqn:Ef.
    + rewrite (H a (or_introl eq_refl) Ef) in Eg. discriminate.
    + apply IH. intros x Hx. apply H. now right.
Qed.

Lemma unlink_spec (p q : string) (paths : list string) :
  In q (Files.unlink p paths) <-> In q paths /\ q <> p.
Proof.
  unfold Files.unlink. rewrite filter_In, negb_true_iff.
  now rewrite String.eqb_neq.
Qed.

Lemma existsb_eqb_in (p : string) (paths : list string) :
  existsb (String.eqb p) paths = true <-> In p paths.
Proof.
  rewrite existsb_exists. split.
  - intros [q [Hq E]]. apply String.eqb_eq in E. now subst.
  - intros H. exists p. split; [exact H | apply String.eqb_refl].
Qed.

Section FileFacts.
Variable toLowerCase : string -> string.
Variable extname : string -> string.
Variable within_limit : Z -> Z -> bool.
Variable JWT_SECRET : string.
Variable compact : Jwt.jws -> string.
Variable parse : string -> option Jwt.jws.
Variable verifyIdToken : string -> string + Middleware.DecodedIdToken.
Variable isEmail : string -> bool.
Variable normalizeEmail : string -> string.
Variable bcrypt_compare : string -> string -> bool.
Variable castObjectId : string -> option nat.
Variable uploadedAt_default : Z -> value.
Variable File_save_error : Files.FileDoc -> option string.
Variable sort_uploadedAt_desc : list Files.FileDoc -> list Files.FileDoc.

Import Files.

Let fileFilter := Files.fileFilter toLowerCase extname.
Let upload_single := Files.upload_single toLowerCase extname within_limit.
Let upload := Files.upload uploadedAt_default File_save_error.
Let list_files := Files.list_files sort_uploadedAt_desc.
Let delete_file := Files.delete_file castObjectId.
Let handler :=
  Files.handler toLowerCase extname within_limit castObjectId
                uploadedAt_default File_save_error sort_uploadedAt_desc.
Let route :=
  Files.route JWT_SECRET parse verifyIdToken toLowerCase extname
              within_limit castObjectId uploadedAt_default File_save_error
              sort_uploadedAt_desc.
Let login :=
  Routes.login toLowerCase JWT_SECRET compact isEmail normalizeEmail
               bcrypt_compare.

Let stored_as := Files.stored_file extname.
Let uploaded := Files.new_File uploadedAt_default.

(** multer leaves the collection alone. *)
Lemma upload_single_files part uniqueSuffix s :
  files (snd (upload_single part uniqueSuffix s)) = files s
  /\ next_file_id (snd (upload_single part uniqueSuffix s))
     = next_file_id s.
Proof.
  unfold upload_single, Files.upload_single.
  destruct part as [p|]; [|now split].
  destruct (Files.fileFilter _ _ p); [now split |].
  now destruct (within_limit MAX_FILE_SIZE (part_size p)).
Qed.

(** multer on a part the filter lets pass and the limit admits. *)
Lemma upload_single_accepts p uniqueSuffix s :
  fileFilter p = None ->
  within_limit MAX_FILE_SIZE (part_size p) = true ->
  upload_single (Some p) uniqueSuffix s
  = (inr (Some (stored_as p uniqueSuffix)),
     write_file ("/uploads/" ++ filename (stored_as p uniqueSuffix)) s).
Proof.
  intros Hf Hs. unfold upload_single, Files.upload_single.
  unfold fileFilter in Hf. now rewrite Hf, Hs.
Qed.

Lemma upload_ids_ok user f now s :
  ids_ok s -> ids_ok (snd (upload user f now s)).
Proof.
  intros [Hu Hf]. unfold upload, Files.upload.
  destruct f as [f|]; [|now split].
  destruct (File_save_error _) as [message|].
  { now destruct (includes _ message). }
  split; simpl.
  - rewrite map_app. simpl. apply NoDup_snoc; [exact Hu |].
    intros Hin. apply in_map_iff in Hin as [d [E Hd]].
    rewrite Forall_forall in Hf. specialize (Hf d Hd). lia.
  - apply Forall_app. split.
    + eapply Forall_impl; [|exact Hf]. simpl. intros; lia.
    + constructor; [simpl; lia | constructor].
Qed.

Lemma delete_ids_ok user fileId s :
  ids_ok s -> ids_ok (snd (delete_file user fileId s)).
Proof.
  intros [Hu Hf]. unfold delete_file, Files.delete_file.
  destruct (castObjectId fileId) as [id|]; [|now split].
  destruct (find _ (files s)); [|now split].
  split; simpl; rewrite (deleteOne_unique id (files s) Hu).
  - apply (NoDup_map_NoDup_ForallPairs).
    + intros a b Ha Hb E. apply filter_In in Ha as [Ha _].
      apply filter_In in Hb as [Hb _].
      exact (NoDup_map_eq file_id (files s) a b Hu Ha Hb E).
    + apply NoDup_filter.
      eapply NoDup_map_inv. exact Hu.
  - rewrite Forall_forall in *. intros d Hd.
    apply filter_In in Hd as [Hd _]. now apply Hf.
Qed.

(** What runs behind the gate for an upload. *)
Lemma handler_upload part uniqueSuffix now user s :
  handler (Upload part uniqueSuffix) now user s
  = match upload_single part uniqueSuffix s with
    | (inl message, s') => (Unhandled message, s')
    | (inr file, s') => upload user file now s'
    end.
Proof. reflexivity. Qed.

(** Every request keeps the [_id]s of the documents distinct. *)
Lemma handler_ids_ok r now user s :
  ids_ok s -> ids_ok (snd (handler r now user s)).
Proof.
  destruct r as [part uniqueSuffix | | fileId].
  - intros [Hu Hf]. rewrite handler_upload.
    destruct (upload_single_files part uniqueSuffix s) as [E1 E2].
    destruct (upload_single part uniqueSuffix s) as [[message | file] s'];
      cbn [snd] in *.
    + split; [now rewrite E1 | now rewrite E1, E2].
    + apply upload_ids_ok. split; [now rewrite E1 | now rewrite E1, E2].
  - exact id.
  - apply delete_ids_ok.
Qed.

(** X10.  The listing is the documents of the collection whose [userId]
    is the one of the principal, put in order by the sort: each of them
    once, no other, and nothing is changed. *)
Theorem list_files_only_own (user : value) (s : store) :
  (forall l, Permutation (sort_uploadedAt_desc l) l) ->
  let own := find_own user s in
  exists docs,
    list_files user s = (FileList docs, s)
    /\ docs = sort_uploadedAt_desc own
    /\ Permutation docs own
    /\ forall doc, In doc docs
                   <-> In doc (files s)
                       /\ userId doc = prop "userId" user.
Proof.
  intros Hperm own. eexists. split; [reflexivity |].
  split; [reflexivity |]. split; [apply Hperm |]. intros doc.
  rewrite <- value_eqb_eq.
  rewrite <- (filter_In (fun d => value_eqb (userId d) (prop "userId" user))
                        doc (files s)).
  split.
  - apply Permutation_in, Hperm.
  - apply Permutation_in, Permutation_sym, Hperm.
Qed.

(** X11.  A deletion is refused without any change to the collection or
    to the upload directory when the path segment is no identifier
    ([500]) and when no document with that identifier belongs to the
    principal, be it that none exists or that it is another user's
    ([404]). *)
Theorem delete_file_refused (user : value) (fileId : string) (s : store) :
  match castObjectId fileId with
  | None =>
      delete_file user fileId s
      = (Json (send_error 500 "Failed to delete file"), s)
  | Some id =>
      (forall doc, In doc (files s) -> file_id doc = id ->
                   userId doc <> prop "userId" user) ->
      delete_file user fileId s
      = (Json (send_error 404 "File not found"), s)
  end.
Proof.
  unfold delete_file, Files.delete_file.
  destruct (castObjectId fileId) as [id|]; [|reflexivity].
  intros H. destruct (find _ (files s)) as [w|] eqn:Hf; [|reflexivity].
  apply find_some in Hf as [Hw E]. apply andb_true_iff in E as [Ei Eu].
  apply Nat.eqb_eq in Ei. apply value_eqb_eq in Eu.
  now elim (H w Hw Ei).
Qed.

(** What a deletion by the owner answers and leaves in the collection. *)
Lemma delete_by_owner (user : value) (fileId : string) (s : store)
      (doc : FileDoc) :
  ids_ok s ->
  castObjectId fileId = Some (file_id doc) ->
  In doc (files s) ->
  userId doc = prop "userId" user ->
  fst (delete_file user fileId s)
  = Json {| status := 200;
            body := VObj [("message", VStr "File deleted successfully")] |}
  /\ files (snd (delete_file user fileId s))
     = filter (fun d => negb (file_id d =? file_id doc)%nat) (files s).
Proof.
  intros [Hu Hf] Hc Hin Ho. unfold delete_file, Files.delete_file.
  rewrite Hc, (find_owned (file_id doc) _ (files s) doc Hu Hin eq_refl Ho).
  cbn [fst snd files]. now rewrite (deleteOne_unique _ _ Hu).
Qed.

(** X12.  The deletion of a document that belongs to the principal is
    answered [200]; afterwards the collection holds the documents it
    held, in their order, without that one, and the upload directory
    holds the paths it held without the path of that document. *)
Theorem delete_file_removes (user : value) (fileId : string) (s : store)
        (doc : FileDoc) :
  ids_ok s ->
  castObjectId fileId = Some (file_id doc) ->
  In doc (files s) ->
  userId doc = prop "userId" user ->
  let s' := snd (delete_file user fileId s) in
  fst (delete_file user fileId s)
  = Json {| status := 200;
            body := VObj [("message", VStr "File deleted successfully")] |}
  /\ files s'
     = filter (fun d => negb (file_id d =? file_id doc)%nat) (files s)
  /\ ~ In doc (files s')
  /\ forall q, In q (disk s') <-> In q (disk s) /\ q <> fileUrl doc.
Proof using castObjectId.
  intros [Hu Hf] Hc Hin Ho s'. unfold s', delete_file, Files.delete_file.
  rewrite Hc, (find_owned (file_id doc) _ (files s) doc Hu Hin eq_refl Ho).
  cbn [fst snd files disk].
  rewrite (deleteOne_unique _ _ Hu).
  split; [reflexivity |]. split; [reflexivity |]. split.
  - intros C. apply filter_In in C as [_ C].
    now rewrite Nat.eqb_refl in C.
  - intros q. destruct (existsb _ (disk s)) eqn:Ex.
    + apply unlink_spec.
    + split; [|now intros [H _]]. intros Hq. split; [exact Hq |]. intros ->.
      apply existsb_eqb_in in Hq. congruence.
Qed.

(** The handler of an upload leaves the documents of the others alone. *)
Lemma upload_keeps_others (user : value) (f : option UploadedFile) (now : Z)
      (s : store) (other : value) :
  other <> prop "userId" user ->
  filter (fun d => value_eqb (userId d) other)
         (files (snd (upload user f now s)))
  = filter (fun d => value_eqb (userId d) other) (files s).
Proof.
  intros Hne. unfold upload, Files.upload. destruct f as [f|]; [|reflexivity].
  destruct (File_save_error _) as [message|].
  { now destruct (includes _ message). }
  cbn [snd files]. rewrite filter_app. cbn [filter userId new_File].
  destruct (value_eqb (prop "userId" user) other) eqn:E.
  - apply value_eqb_eq in E. now elim Hne.
  - apply app_nil_r.
Qed.

(** X13.  Whatever a principal requests of the file router, the
    documents of every other user stay as they are: for a [userId]
    other than the principal's, the documents stored under it are the
    same, in the same order, before and after the request. *)
Theorem other_users_files_untouched (r : request) (now : Z) (user : value)
        (s : store) (other : value) :
  ids_ok s ->
  other <> prop "userId" user ->
  filter (fun d => value_eqb (userId d) other)
         (files (snd (handler r now user s)))
  = filter (fun d => value_eqb (userId d) other) (files s).
Proof.
  intros [Hu _] Hne. destruct r as [part uniqueSuffix | | fileId].
  - rewrite handler_upload.
    destruct (upload_single_files part uniqueSuffix s) as [E _].
    destruct (upload_single part uniqueSuffix s) as [[message | file] s'];
      cbn [snd] in *.
    + now rewrite E.
    + rewrite <- E. now apply upload_keeps_others.
  - reflexivity.
  - simpl. unfold Files.delete_file.
    destruct (castObjectId fileId) as [id|]; [|reflexivity].
    destruct (find _ (files s)) as [w|] eqn:Hf; [|reflexivity].
    apply find_some in Hf as [Hw E]. apply andb_true_iff in E as [Ei Eo].
    apply Nat.eqb_eq in Ei. apply value_eqb_eq in Eo.
    cbn [snd files]. rewrite (deleteOne_unique id (files s) Hu).
    apply filter_absorbs. intros d Hd Ed.
    apply value_eqb_eq in Ed.
    apply negb_true_iff, Nat.eqb_neq. intros Eid.
    assert (d = w) by (apply (NoDup_map_eq file_id (files s) d w Hu Hd Hw);
                       congruence).
    subst d. congruence.
Qed.

Lemma listed_eq (user : value) (s : store) :
  listed (fst (list_files user s))
  = sort_uploadedAt_desc
      (filter (fun d => value_eqb (userId d) (prop "userId" user))
              (files s)).
Proof. reflexivity. Qed.

Lemma upload_eq (user : value) (f : UploadedFile) (now : Z) (s : store) :
  upload user (Some f) now s
  = let doc := uploaded user f now s in
    match File_save_error doc with
    | None =>
        (Json {| status := 201;
                 body := VObj
                   [("message", VStr "File uploaded successfully");
                    ("file", VObj
                       [("id", VId (file_id doc));
                        ("fileName", VStr (originalName doc));
                        ("fileType", VStr (fileType doc));
                        ("fileSize", VNum (fileSize doc));
                        ("fileUrl", VStr (fileUrl doc));
                        ("uploadedAt", uploadedAt doc)])] |},
         {| files := (files s ++ [doc])%list;
            next_file_id := S (next_file_id s);
            disk := disk s |})
    | Some message =>
        if includes "Executable files" message
        then (Json (send_error 400 message), s)
        else (Json (send_error 500 "File upload failed"), s)
    end.
Proof. reflexivity. Qed.

(** X14.  [POST /upload] behind the gate.  Without a file part the
    answer is [400].  A part the file filter refuses, or one multer
    finds over the size limit, is not handled by the route: the error
    goes to Express, which answers [500], and nothing is written or
    stored; the filter's message is not sent as a [400].  For a part
    multer accepts the file is written into the upload directory.  If saving the document then
    throws, the answer is [400] with the error's message when that
    message includes [Executable files] and [500 File upload failed]
    otherwise, and no document is stored.  If the document is saved the
    answer is [201]: the collection gains that one document, owned by
    the principal, and the principal's listing is afterwards what it
    was, with that document added once. *)
Theorem upload_then_listed (user : value) (now : Z) (uniqueSuffix : string)
        (s : store) :
  (forall l, Permutation (sort_uploadedAt_desc l) l) ->
  handler (Upload None uniqueSuffix) now user s
  = (Json (send_error 400 "No file uploaded"), s)
  /\ forall p : Part,
      let request := Upload (Some p) uniqueSuffix in
      let doc := uploaded user (stored_as p uniqueSuffix) now s in
      let s' := snd (handler request now user s) in
      (forall message,
          fileFilter p = Some message ->
          handler request now user s = (Unhandled message, s))
      /\ (fileFilter p = None ->
          within_limit MAX_FILE_SIZE (part_size p) = false ->
          handler request now user s = (Unhandled "File too large", s))
      /\ (fileFilter p = None ->
          within_limit MAX_FILE_SIZE (part_size p) = true ->
          disk s' = write (fileUrl doc) (disk s)
          /\ (forall message,
                 File_save_error doc = Some message ->
                 fst (handler request now user s)
                 = (if includes "Executable files" message
                    then Json (send_error 400 message)
                    else Json (send_error 500 "File upload failed"))
                 /\ files s' = files s)
          /\ (File_save_error doc = None ->
              reply_status (fst (handler request now user s)) = 201
              /\ files s' = (files s ++ [doc])%list
              /\ userId doc = prop "userId" user
              /\ Permutation (listed (fst (list_files user s')))
                             (doc :: listed (fst (list_files user s))))).
Proof.
  intros Hperm. split; [reflexivity |]. intros p request doc s'.
  unfold s', request. rewrite handler_upload. split; [|split].
  - intros message Hf. unfold upload_single, Files.upload_single.
    unfold fileFilter in Hf. now rewrite Hf.
  - intros Hf Hs. unfold upload_single, Files.upload_single.
    unfold fileFilter in Hf. now rewrite Hf, Hs.
  - intros Hf Hs. rewrite (upload_single_accepts p uniqueSuffix s Hf Hs).
    rewrite upload_eq. cbv zeta.
    change (uploaded user (stored_as p uniqueSuffix) now
                     (write_file
                        ("/uploads/" ++ filename (stored_as p uniqueSuffix))
                        s)) with doc.
    destruct (File_save_error doc) as [message|] eqn:Hsave.
    + split; [now destruct (includes _ message) |].
      split; [|discriminate].
      intros m [= <-]. now destruct (includes _ message).
    + split; [reflexivity |]. split; [discriminate |]. intros _.
      cbn [fst snd files reply_status status].
      split; [reflexivity |]. split; [reflexivity |].
      split; [reflexivity |].
      rewrite !listed_eq. cbn [files]. rewrite filter_app.
      cbn [filter]. replace (userId doc) with (prop "userId" user)
        by reflexivity.
      rewrite value_eqb_refl.
      eapply Permutation_trans; [apply Hperm |].
      eapply Permutation_trans;
        [apply Permutation_app_comm |]. cbn [app].
      apply perm_skip, Permutation_sym, Hperm.
Qed.

(** X15.  A document that was just uploaded can be deleted by the
    principal that uploaded it, under the identifier it was given: the
    answer is [200] and the collection holds again exactly the documents
    it held before the upload. *)
Theorem upload_then_delete (user : value) (f : UploadedFile) (now : Z)
        (fileId : string) (s : store) :
  ids_ok s ->
  File_save_error (uploaded user f now s) = None ->
  castObjectId fileId = Some (next_file_id s) ->
  let s1 := snd (upload user (Some f) now s) in
  reply_status (fst (delete_file user fileId s1)) = 200
  /\ files (snd (delete_file user fileId s1)) = files s.
Proof.
  intros Hok Hv Hc s1.
  pose proof (upload_ids_ok user (Some f) now s Hok) as Hok1.
  fold s1 in Hok1.
  assert (E1 : files s1 = (files s ++ [uploaded user f now s])%list).
  { unfold s1. rewrite upload_eq. cbv zeta. now rewrite Hv. }
  assert (Hin : In (uploaded user f now s) (files s1)).
  { rewrite E1. apply in_or_app. right. now left. }
  destruct (delete_by_owner user fileId s1 (uploaded user f now s)
              Hok1 Hc Hin eq_refl) as [R F].
  split; [now rewrite R |]. rewrite F, E1, filter_app.
  unfold uploaded. cbn [filter file_id new_File].
  rewrite Nat.eqb_refl. cbn [negb]. rewrite app_nil_r.
  apply forallb_filter_id, forallb_forall. intros d Hd.
  destruct Hok as [_ Hfresh]. rewrite Forall_forall in Hfresh.
  apply negb_true_iff, Nat.eqb_neq. specialize (Hfresh d Hd). lia.
Qed.

(** X16.  Behind the gate: a request whose credential the gate does not
    accept is answered [401] by the gate, its handler does not run, and
    the collection and the upload directory are as they were. *)
Theorem route_needs_credential (authorization : option string) (r : request)
        (now : Z) (s : store) :
  (forall user,
      fst (Middleware.verifyToken JWT_SECRET parse verifyIdToken
                                  authorization now)
      <> Middleware.Next user) ->
  reply_status (fst (route authorization r now s)) = 401
  /\ snd (route authorization r now s) = s.
Proof.
  intros H. unfold route, Files.route, behind_gate.
  destruct (fst (Middleware.verifyToken _ _ _ authorization now))
    as [user | resp] eqn:G; [now elim (H user) |].
  split; [|reflexivity]. cbn [fst reply_status].
  unfold Middleware.verifyToken in G.
  destruct authorization as [h|]; [|now injection G as <-].
  destruct (negb _ || negb _); [now injection G as <- |].
  destruct (Jwt.verify _ _ _ _); [|discriminate].
  destruct (verifyIdToken _); [|discriminate].
  now injection G as <-.
Qed.

(** X17.  From login to upload.  The identity [u] logs in at [issued]
    and gets a token.  An upload made under that token before it
    expires, with a file part that multer accepts and a document that is
    saved, passes the gate, is answered [201], and adds to the
    collection one document whose [userId] is the [_id] of [u]. *)
Theorem session_upload_is_owned (e pw : option string) (issued later : Z)
        (d : db) (u : User) (h : string) (p : Part)
        (uniqueSuffix : string) (s : store) :
  isEmail (to_string e) = true ->
  to_string pw <> "" ->
  findOne_email toLowerCase (normalizeEmail (to_string e)) d = Some u ->
  passwordHash u = Some h ->
  bcrypt_compare (to_string pw) h = true ->
  let j := Session.signed (Session.email_claims u) JWT_SECRET issued in
  let authorization := Some ("Bearer " ++ compact j) in
  let request := Upload (Some p) uniqueSuffix in
  let doc := uploaded (VObj (Jwt.payload j)) (stored_as p uniqueSuffix)
                      later s in
  parse (compact j) = Some j ->
  (later / 1000 < issued / 1000 + 604800)%Z ->
  fileFilter p = None ->
  within_limit MAX_FILE_SIZE (part_size p) = true ->
  File_save_error doc = None ->
  Session.token_of (fst (login e pw issued d)) = VStr (compact j)
  /\ reply_status (fst (route authorization request later s)) = 201
  /\ files (snd (route authorization request later s))
     = (files s ++ [doc])%list
  /\ userId doc = VId (_id u).
Proof.
  intros He Hpw Hfind Hh Hc j authorization request doc Hparse Hlt Hf Hs Hv.
  apply String.eqb_neq in Hpw.
  split.
  { unfold login, Routes.login, notEmpty.
    rewrite He, Hpw, Hfind, Hh, Hc. reflexivity. }
  assert (R : route authorization request later s
              = upload (VObj (Jwt.payload j))
                       (Some (stored_as p uniqueSuffix)) later
                       (write_file
                          ("/uploads/"
                           ++ filename (stored_as p uniqueSuffix)) s)).
  { unfold route, Files.route, behind_gate, authorization.
    pose proof (gate_accepts_signed JWT_SECRET compact parse verifyIdToken
                  (Session.email_claims u) issued later eq_refl Hparse Hlt)
      as G.
    cbv zeta in G. fold j in G. rewrite G. cbn [fst].
    change (Files.handler toLowerCase extname within_limit castObjectId
                          uploadedAt_default File_save_error
                          sort_uploadedAt_desc request later
                          (VObj (Jwt.payload j)) s)
      with (handler (Upload (Some p) uniqueSuffix) later
                    (VObj (Jwt.payload j)) s).
    rewrite handler_upload.
    now rewrite (upload_single_accepts p uniqueSuffix s Hf Hs). }
  rewrite R, upload_eq. cbv zeta.
  change (uploaded (VObj (Jwt.payload j)) (stored_as p uniqueSuffix) later
                   (write_file
                      ("/uploads/" ++ filename (stored_as p uniqueSuffix))
                      s)) with doc.
  rewrite Hv. repeat split.
Qed.

End FileFacts.

(** ** Further concrete requests *)

Lemma insert_desc_perm (d : Files.FileDoc) (l : list Files.FileDoc) :
  Permutation (SampleFiles.insert_desc d l) (d :: l).
Proof.
  induction l as [|x l IH]; simpl; [apply Permutation_refl |].
  destruct (SampleFiles.not_older d x); [apply Permutation_refl |].
  eapply Permutation_trans; [apply perm_skip, IH | apply perm_swap].
Defined.

Lemma sample_sort_perm (l : list Files.FileDoc) :
  Permutation (SampleFiles.sort_uploadedAt_desc l) l.
Proof.
  induction l as [|d l IH]; simpl; [apply perm_nil |].
  eapply Permutation_trans; [apply insert_desc_perm | now apply perm_skip].
Defined.

Lemma sample_ids_ok : Files.ids_ok SampleFiles.store2.
Proof.
  split; simpl.
  - repeat constructor; simpl; intuition discriminate.
  - repeat constructor.
Defined.

Example sample_store2 :
  map Files.file_id (Files.files SampleFiles.store2) = [0; 1]%nat
  /\ map Files.userId (Files.files SampleFiles.store2)
     = [VId 0; VStr "carol-uid"].
Proof. split; reflexivity. Qed.

(** The collection after Alice's registration, a phone login and
    Bob's registration is one the router reaches. *)
Lemma sample_reachable_three : Sample.reachable Sample.db_three.
Proof.
  exact (reach_step Sample.toLowerCase Sample.JWT_SECRET Sample.compact
           Sample.isEmail Sample.normalizeEmail Sample.bcrypt_hash
           Sample.bcrypt_compare Sample.db_phone
           (Register Sample.bob Sample.bob_password Sample.salt1) 4000
           (reach_step Sample.toLowerCase Sample.JWT_SECRET Sample.compact
              Sample.isEmail Sample.normalizeEmail Sample.bcrypt_hash
              Sample.bcrypt_compare Sample.db_registered
              (PhoneLogin (Some "assertion") Sample.phone_wrapped) 3000
              sample_reachable)).
Defined.

Example sample_db_three :
  map (fun u => (_id u, email u, phoneNumber u)) (users Sample.db_three)
  = [(0, Some "alice@example.com", None);
     (1, None, Some "+15550100");
     (2, Some "bob@example.com", None)]%nat.
Proof. vm_compute. reflexivity. Qed.

(** Alice, at the first place of three, and Bob, at the third: Bob's
    address is not hers. *)
Lemma contacts_are_unique_witness :
  nth_error (users Sample.db_three) 0 = Some Sample.alice_identity
  /\ nth_error (users Sample.db_three) 2 = Some Sample.bob_identity
  /\ email Sample.alice_identity = Some "alice@example.com"
  /\ email Sample.bob_identity <> Some "alice@example.com".
Proof.
  assert (Ha : nth_error (users Sample.db_three) 0
               = Some Sample.alice_identity) by (vm_compute; reflexivity).
  assert (Hb : nth_error (users Sample.db_three) 2
               = Some Sample.bob_identity) by (vm_compute; reflexivity).
  assert (Hne : 0%nat <> 2%nat) by discriminate.
  split; [exact Ha |]. split; [exact Hb |]. split; [reflexivity |].
  exact (proj1 (contacts_are_unique
                  Sample.toLowerCase Sample.JWT_SECRET Sample.compact
                  Sample.isEmail Sample.normalizeEmail Sample.bcrypt_hash
                  Sample.bcrypt_compare Sample.db_three 0 2
                  Sample.alice_identity Sample.bob_identity
                  sample_reachable_three Ha Hb Hne)
               "alice@example.com" eq_refl).
Defined.

(** The three stored contact values: the phone login sent its number
    between two no-break spaces. *)
Lemma stored_contacts_normalised_witness :
  Forall (fun u =>
            match authProvider u with
            | email_provider =>
                phoneNumber u = None
                /\ exists s, email u = Some s
                             /\ Sample.toLowerCase s = s /\ trim s = s
            | phone_provider =>
                email u = None
                /\ exists s, phoneNumber u = Some s /\ trim s = s
            end) (users Sample.db_three).
Proof.
  exact (stored_contacts_normalised
           Sample.toLowerCase Sample.JWT_SECRET Sample.compact
           Sample.isEmail Sample.normalizeEmail Sample.bcrypt_hash
           Sample.bcrypt_compare Sample.db_three
           toLowerCase_idem trim_lower sample_reachable_three).
Defined.

(** Bob is found under his stored address, among three identities. *)
Lemma stored_identity_is_found_witness :
  exists u, In u (users Sample.db_three)
            /\ findOne_email Sample.toLowerCase "bob@example.com"
                             Sample.db_three = Some u
            /\ _id u = 2%nat.
Proof.
  eexists. split; [right; right; left; reflexivity |]. split.
  - refine (proj1 (stored_identity_is_found
                     Sample.toLowerCase Sample.JWT_SECRET Sample.compact
                     Sample.isEmail Sample.normalizeEmail Sample.bcrypt_hash
                     Sample.bcrypt_compare Sample.db_three _
                     sample_set_email_idem sample_reachable_three _)
                  "bob@example.com" _).
    + right. right. left. reflexivity.
    + reflexivity.
  - reflexivity.
Defined.

(** A login with a wrong password after Alice's registration. *)
Lemma router_never_fails_witness :
  expected_status
    (status (fst (Sample.handle (Login Sample.alice (Some "hunter23")) 2000
                                Sample.db_registered))) = true.
Proof.
  exact (router_never_fails
           Sample.toLowerCase Sample.JWT_SECRET Sample.compact
           Sample.isEmail Sample.normalizeEmail Sample.bcrypt_hash
           Sample.bcrypt_compare
           (Login Sample.alice (Some "hunter23")) 2000
           Sample.db_registered sample_reachable).
Defined.

(** Alice's login at 2 s rewrites her identity, the only one. *)
Lemma request_touches_one_identity_witness :
  nth_error (users (snd (Sample.handle
                           (Login Sample.alice Sample.alice_password)
                           2000 Sample.db_registered))) 0
  = Some Sample.alice_identity
  \/ nth_error (users (snd (Sample.handle
                              (Login Sample.alice Sample.alice_password)
                              2000 Sample.db_registered))) 0
     = Some (touch Sample.alice_identity 2000).
Proof.
  exact (proj1 (request_touches_one_identity
                  Sample.toLowerCase Sample.JWT_SECRET Sample.compact
                  Sample.isEmail Sample.normalizeEmail Sample.bcrypt_hash
                  Sample.bcrypt_compare
                  (Login Sample.alice Sample.alice_password) 2000
                  Sample.db_registered sample_reachable)
               0%nat Sample.alice_identity eq_refl).
Defined.

(** The same number, once bare and once between two no-break spaces. *)
Lemma phone_login_twice_witness :
  Session.user_id_of
    (fst (Sample.phone_login
            (Some "assertion-2") Sample.phone_wrapped 4000
            (snd (Sample.phone_login (Some "assertion-1") Sample.phone
                                     3000 empty))))
  = VId 0
  /\ List.length
       (users (snd (Sample.phone_login
                      (Some "assertion-2") Sample.phone_wrapped 4000
                      (snd (Sample.phone_login
                              (Some "assertion-1") Sample.phone
                              3000 empty))))) = 1%nat.
Proof.
  assert (Htrim : trim (Sample.nbsp ++ "+15550100" ++ Sample.nbsp)
                  = trim "+15550100") by (vm_compute; reflexivity).
  assert (Hp : "+15550100" <> "") by discriminate.
  assert (Hp' : Sample.nbsp ++ "+15550100" ++ Sample.nbsp <> "")
    by discriminate.
  destruct (phone_login_twice
              Sample.toLowerCase Sample.JWT_SECRET Sample.compact
              (Some "assertion-1") (Some "assertion-2")
              "+15550100" (Sample.nbsp ++ "+15550100" ++ Sample.nbsp)
              3000 4000 empty
              eq_refl eq_refl Hp Hp' Htrim eq_refl) as [_ [H L]].
  split; [exact H | exact L].
Defined.

(** Alice's token, six days after her login. *)
Lemma login_token_opens_gate_witness :
  fst (Sample.verifyToken (Some ("Bearer " ++ Sample.alice_token))
                          (2000 + 6 * 24 * 60 * 60 * 1000))
  = Middleware.Next SampleFiles.alice_user.
Proof.
  destruct (login_token_opens_gate
              Sample.toLowerCase Sample.JWT_SECRET Sample.compact
              Sample.parse
              Sample.verifyIdToken Sample.isEmail Sample.normalizeEmail
              Sample.bcrypt_compare
              Sample.alice Sample.alice_password 2000
              (2000 + 6 * 24 * 60 * 60 * 1000) Sample.db_registered
              Sample.alice_identity
              "$2a$10$abcdefghijklmnopqrstuvhunter22")
    as [_ [G _]];
    [reflexivity | discriminate | reflexivity | reflexivity | reflexivity
     | reflexivity | reflexivity |].
  unfold Sample.verifyToken, Sample.alice_token, Jwt.sign.
  change (Jwt.clockTimestamp 2000) with 2%Z.
  exact (f_equal fst G).
Defined.

(** A second phone login at 5 s, under the stored number sent between
    two no-break spaces: the token is for the stored identity and the
    bare number, and opens the gate one hour later. *)
Lemma phone_token_opens_gate_witness :
  Session.token_of
    (fst (Sample.phone_login (Some "assertion-2") Sample.phone_wrapped 5000
                             Sample.db_phone_only))
  = VStr (Sample.compact SampleFiles.phone_jws_again)
  /\ fst (Middleware.verifyToken
            Sample.JWT_SECRET SampleFiles.parse_phone Sample.verifyIdToken
            (Some ("Bearer " ++ Sample.compact SampleFiles.phone_jws_again))
            3605000)
     = Middleware.Next (VObj (Jwt.payload SampleFiles.phone_jws_again)).
Proof.
  assert (Hparse : SampleFiles.parse_phone
                     (Sample.compact SampleFiles.phone_jws_again)
                   = Some SampleFiles.phone_jws_again)
    by (vm_compute; reflexivity).
  assert (Hlt : (3605000 / 1000 < 5000 / 1000 + 604800)%Z)
    by (vm_compute; reflexivity).
  destruct (phone_token_opens_gate
              Sample.toLowerCase Sample.JWT_SECRET Sample.compact
              SampleFiles.parse_phone Sample.verifyIdToken
              (Some "assertion-2") Sample.phone_wrapped 5000 3605000
              Sample.db_phone_only
              eq_refl eq_refl Hparse Hlt) as [T [G _]].
  split; [exact T | exact (f_equal fst G)].
Defined.

(** Alice's listing of the store that holds her report, Carol's photo
    and her notes: her two documents, the newest first. *)
Lemma list_files_only_own_witness :
  map Files.fileName
      (Files.listed (fst (SampleFiles.list_files SampleFiles.alice_user
                                                 SampleFiles.store3)))
  = ["file-5000-9.txt"; "file-3000-42.pdf"].
Proof.
  destruct (list_files_only_own SampleFiles.sort_uploadedAt_desc
              SampleFiles.alice_user SampleFiles.store3 sample_sort_perm)
    as [docs [E [Es _]]].
  unfold SampleFiles.list_files. rewrite E. cbn [fst Files.listed].
  rewrite Es. vm_compute. reflexivity.
Defined.

(** Carol asks to delete Alice's report. *)
Lemma delete_file_refused_witness :
  SampleFiles.delete_file SampleFiles.carol_user SampleFiles.report_id
                          SampleFiles.store2
  = (Files.Json (send_error 404 "File not found"), SampleFiles.store2).
Proof.
  pose proof (delete_file_refused SampleFiles.castObjectId
                SampleFiles.carol_user SampleFiles.report_id
                SampleFiles.store2) as H.
  change (SampleFiles.castObjectId SampleFiles.report_id)
    with (Some 0%nat) in H.
  apply H. intros doc Hin Hid Ho. vm_compute in Hin.
  destruct Hin as [<- | [<- | []]].
  - discriminate Ho.
  - discriminate Hid.
Defined.

(** Alice deletes her report. *)
Lemma delete_file_removes_witness :
  map Files.file_id
      (Files.files (snd (SampleFiles.delete_file
                           SampleFiles.alice_user SampleFiles.report_id
                           SampleFiles.store2))) = [1%nat]
  /\ ~ In "/uploads/file-3000-42.pdf"
          (Files.disk (snd (SampleFiles.delete_file
                              SampleFiles.alice_user SampleFiles.report_id
                              SampleFiles.store2))).
Proof.
  destruct (delete_file_removes SampleFiles.castObjectId
              SampleFiles.alice_user SampleFiles.report_id
              SampleFiles.store2 SampleFiles.report_doc
              sample_ids_ok eq_refl (or_introl eq_refl) eq_refl)
    as [_ [F [_ D]]].
  split.
  - unfold SampleFiles.delete_file. rewrite F. reflexivity.
  - intros C. apply (proj1 (D _)) in C. destruct C as [_ C].
    exact (C eq_refl).
Defined.

(** Alice's deletion leaves Carol's documents alone. *)
Lemma other_users_files_untouched_witness :
  filter (fun d => Files.value_eqb (Files.userId d) (VStr "carol-uid"))
         (Files.files (snd (SampleFiles.handler
                              (Files.Delete SampleFiles.report_id) 5000
                              SampleFiles.alice_user SampleFiles.store2)))
  = filter (fun d => Files.value_eqb (Files.userId d) (VStr "carol-uid"))
           (Files.files SampleFiles.store2).
Proof.
  apply (other_users_files_untouched Sample.toLowerCase SampleFiles.extname
           SampleFiles.within_limit SampleFiles.castObjectId
           SampleFiles.uploadedAt_default SampleFiles.File_save_error
           SampleFiles.sort_uploadedAt_desc
           (Files.Delete SampleFiles.report_id) 5000
           SampleFiles.alice_user SampleFiles.store2 (VStr "carol-uid")
           sample_ids_ok).
  discriminate.
Defined.

(** Alice's uploads on the empty store: a program, which the filter
    refuses; a film of one byte over the limit; and her report, which
    is written and stored. *)
Lemma upload_then_listed_witness :
  SampleFiles.handler (Files.Upload (Some SampleFiles.virus_part) "3000-42")
                      3000 SampleFiles.alice_user SampleFiles.empty
  = (Files.Unhandled "Executable files are not allowed for security reasons",
     SampleFiles.empty)
  /\ SampleFiles.handler (Files.Upload (Some SampleFiles.film_part) "3000-42")
                         3000 SampleFiles.alice_user SampleFiles.empty
     = (Files.Unhandled "File too large", SampleFiles.empty)
  /\ Files.reply_status
       (fst (SampleFiles.handler
               (Files.Upload (Some SampleFiles.report_part) "3000-42")
               3000 SampleFiles.alice_user SampleFiles.empty)) = 201
  /\ snd (SampleFiles.handler
            (Files.Upload (Some SampleFiles.report_part) "3000-42")
            3000 SampleFiles.alice_user SampleFiles.empty)
     = {| Files.files := [SampleFiles.report_doc];
          Files.next_file_id := 1;
          Files.disk := ["/uploads/file-3000-42.pdf"] |}.
Proof.
  destruct (upload_then_listed Sample.toLowerCase SampleFiles.extname
              SampleFiles.within_limit
              SampleFiles.castObjectId SampleFiles.uploadedAt_default
              SampleFiles.File_save_error SampleFiles.sort_uploadedAt_desc
              SampleFiles.alice_user 3000 "3000-42" SampleFiles.empty
              sample_sort_perm) as [_ H].
  destruct (H SampleFiles.virus_part) as [Hvirus _].
  destruct (H SampleFiles.film_part) as [_ [Hfilm _]].
  destruct (H SampleFiles.report_part) as [_ [_ Hreport]].
  split; [|split; [|split]].
  - apply Hvirus. vm_compute. reflexivity.
  - apply Hfilm; vm_compute; reflexivity.
  - destruct Hreport as [_ [_ K]];
      [vm_compute; reflexivity | vm_compute; reflexivity |].
    exact (proj1 (K eq_refl)).
  - vm_compute. reflexivity.
Defined.

(** Carol uploads her photo and deletes it again. *)
Lemma upload_then_delete_witness :
  Files.files
    (snd (SampleFiles.delete_file SampleFiles.carol_user SampleFiles.photo_id
                                  SampleFiles.store2))
  = Files.files SampleFiles.store1.
Proof.
  refine (proj2 (upload_then_delete SampleFiles.castObjectId
                   SampleFiles.uploadedAt_default SampleFiles.File_save_error
                   SampleFiles.carol_user SampleFiles.photo 4000
                   SampleFiles.photo_id SampleFiles.store1
                   _ eq_refl eq_refl)).
  split; simpl; repeat constructor. intros [].
Defined.

(** An upload without any [Authorization] header. *)
Lemma route_needs_credential_witness :
  Files.reply_status
    (fst (SampleFiles.route
            None (Files.Upload (Some SampleFiles.report_part) "3000-42")
            5000 SampleFiles.store2)) = 401
  /\ snd (SampleFiles.route
            None (Files.Upload (Some SampleFiles.report_part) "3000-42")
            5000 SampleFiles.store2)
     = SampleFiles.store2.
Proof.
  apply (route_needs_credential Sample.toLowerCase SampleFiles.extname
           SampleFiles.within_limit
           Sample.JWT_SECRET Sample.parse
           Sample.verifyIdToken SampleFiles.castObjectId
           SampleFiles.uploadedAt_default SampleFiles.File_save_error
           SampleFiles.sort_uploadedAt_desc
           None (Files.Upload (Some SampleFiles.report_part) "3000-42") 5000
           SampleFiles.store2).
  intros user. discriminate.
Defined.

(** Alice logs in at 2 s and uploads her report with the token she got,
    one second later. *)
Lemma session_upload_is_owned_witness :
  Session.token_of (fst (Sample.login Sample.alice Sample.alice_password
                                      2000 Sample.db_registered))
  = VStr Sample.alice_token
  /\ Files.files
       (snd (SampleFiles.route
               (Some ("Bearer " ++ Sample.alice_token))
               (Files.Upload (Some SampleFiles.report_part) "3000-42") 3000
               SampleFiles.empty))
     = [SampleFiles.report_doc].
Proof.
  assert (Hpw : to_string Sample.alice_password <> "") by discriminate.
  assert (Hfilter : Files.fileFilter Sample.toLowerCase SampleFiles.extname
                                     SampleFiles.report_part = None)
    by (vm_compute; reflexivity).
  assert (Hsize : SampleFiles.within_limit
                    Files.MAX_FILE_SIZE
                    (Files.part_size SampleFiles.report_part) = true)
    by (vm_compute; reflexivity).
  assert (Hlt : (3000 / 1000 < 2000 / 1000 + 604800)%Z)
    by (vm_compute; reflexivity).
  destruct (session_upload_is_owned
              Sample.toLowerCase SampleFiles.extname
              SampleFiles.within_limit
              Sample.JWT_SECRET Sample.compact Sample.parse
              Sample.verifyIdToken Sample.isEmail Sample.normalizeEmail
              Sample.bcrypt_compare SampleFiles.castObjectId
              SampleFiles.uploadedAt_default SampleFiles.File_save_error
              SampleFiles.sort_uploadedAt_desc
              Sample.alice Sample.alice_password 2000 3000
              Sample.db_registered Sample.alice_identity
              "$2a$10$abcdefghijklmnopqrstuvhunter22"
              SampleFiles.report_part "3000-42" SampleFiles.empty
              eq_refl Hpw eq_refl eq_refl eq_refl eq_refl Hlt Hfilter Hsize
              eq_refl) as [T [_ [F _]]].
  split; [exact T | exact F].
Defined.
